(** * The Spotify ETL pipeline of [spotify.py]: extract, transform, load.

    A shallow embedding of the three stages and of the helper
    [upload_object_to_bucket], with the external services (the HTTP API,
    blob storage, the local scratch directory, the warehouse) as explicit
    state, and the ways their calls can fail as an explicit fault plan. *)

From Stdlib Require Import ZArith Ascii String List Lia.
From stdpp Require Import base decidable option list gmap strings.

Local Open Scope Z_scope.

(** ** Python exceptions *)

(** The exception classes that appear in the program or that its library
    calls raise.  [SystemExit] and [KeyboardInterrupt] derive from
    [BaseException] only, so [except Exception] lets them through. *)
Inductive exn : Type :=
| KeyError (key : string)
| IndexError
| TypeError
| AttributeError
| ValueError
| JSONDecodeError
| FileNotFoundError
| OSError
| RequestException
| NotFound
| Forbidden
| GoogleAPIError (code : Z)
| SystemExit
| KeyboardInterrupt.

#[global] Instance exn_eq_dec : EqDecision exn.
Proof. solve_decision. Defined.

(** [isinstance(e, Exception)] *)
Definition is_Exception (e : exn) : bool :=
  match e with
  | SystemExit | KeyboardInterrupt => false
  | _ => true
  end.

(** [isinstance(e, NotFound)] *)
Definition is_NotFound (e : exn) : bool :=
  match e with
  | NotFound => true
  | _ => false
  end.

(** A computation that returns a value or raises. *)
Inductive result (A : Type) : Type :=
| Ok (a : A)
| Raise (e : exn).
Arguments Ok {A} a.
Arguments Raise {A} e.

Definition rbind {A B} (r : result A) (k : A -> result B) : result B :=
  match r with
  | Ok a => k a
  | Raise e => Raise e
  end.

Definition is_Ok {A} (r : result A) : bool :=
  match r with Ok _ => true | Raise _ => false end.

Declare Scope result_scope.
Delimit Scope result_scope with result.
Notation "'let?' x := r 'in' k" := (rbind r (fun x => k))
  (at level 10, x name, r at level 100, k at level 200) : result_scope.

(** ** Python strings

    A [str] is modelled by its UTF-8 bytes; the separators the program
    splits on are ASCII, so splitting bytes and splitting code points
    agree. *)

Module Str.

(** [s.split(sep)] for a one-character separator. *)
Fixpoint split (sep : ascii) (s : string) : list string :=
  match s with
  | EmptyString => [EmptyString]
  | String c s' =>
      if Ascii.eqb c sep then EmptyString :: split sep s'
      else match split sep s' with
           | h :: t => String c h :: t
           | [] => [String c EmptyString]
           end
  end.

(** Splitting at the last occurrence of [sep], if there is one. *)
Fixpoint cut_last (sep : ascii) (s : string) : option (string * string) :=
  match s with
  | EmptyString => None
  | String c s' =>
      match cut_last sep s' with
      | Some (h, t) => Some (String c h, t)
      | None => if Ascii.eqb c sep then Some (EmptyString, s') else None
      end
  end.

(** [s.rsplit(sep, 1)] *)
Definition rsplit1 (sep : ascii) (s : string) : list string :=
  match cut_last sep s with
  | Some (h, t) => [h; t]
  | None => [s]
  end.

(** [s.startswith(p)] *)
Fixpoint startswith (p s : string) : bool :=
  match p, s with
  | EmptyString, _ => true
  | String a p', String b s' => Ascii.eqb a b && startswith p' s'
  | String _ _, EmptyString => false
  end.

(** [s.replace(old, new)] for a non-empty [old]: occurrences are found
    left to right and do not overlap.  [skip] counts the characters of
    a match that are still to be dropped. *)
Fixpoint replace_from (old new : string) (skip : nat) (s : string) : string :=
  match s with
  | EmptyString => EmptyString
  | String c s' =>
      match skip with
      | S k => replace_from old new k s'
      | O =>
          if startswith old s
          then new +:+ replace_from old new (Nat.pred (String.length old)) s'
          else String c (replace_from old new O s')
      end
  end.

Definition replace (old new s : string) : string :=
  replace_from old new O s.

(** [sep.join(l)] *)
Fixpoint join (sep : string) (l : list string) : string :=
  match l with
  | [] => EmptyString
  | [x] => x
  | x :: l' => x +:+ sep +:+ join sep l'
  end.

(** [c not in s] *)
Fixpoint lacks (c : ascii) (s : string) : bool :=
  match s with
  | EmptyString => true
  | String a s' => negb (Ascii.eqb a c) && lacks c s'
  end.

(** The characters of a string, one string each (iteration over a [str]). *)
Fixpoint chars (s : string) : list string :=
  match s with
  | EmptyString => []
  | String c s' => String c EmptyString :: chars s'
  end.

End Str.

(** [l[0]] and [l[-1]] on a Python list. *)
Definition index_first {A} (l : list A) : result A :=
  match l with
  | x :: _ => Ok x
  | [] => Raise IndexError
  end.

Definition index_last {A} (l : list A) : result A :=
  match List.rev l with
  | x :: _ => Ok x
  | [] => Raise IndexError
  end.

(** ** JSON values as Python objects

    What [json.load] and [response.json()] return.  A [dict] is kept as
    its items in insertion order (its keys are distinct); a float is kept
    as its [repr]. *)
#[warnings="-register-all"]
Inductive json : Type :=
| JNull
| JBool (b : bool)
| JInt (n : Z)
| JFloat (repr : string)
| JStr (s : string)
| JArr (items : list json)
| JObj (fields : list (string * json)).

Fixpoint dict_get (fields : list (string * json)) (k : string) : option json :=
  match fields with
  | [] => None
  | (k', v) :: rest => if String.eqb k' k then Some v else dict_get rest k
  end.

(** [v[k]] with a string key. *)
Definition getitem (v : json) (k : string) : result json :=
  match v with
  | JObj fields =>
      match dict_get fields k with
      | Some x => Ok x
      | None => Raise (KeyError k)
      end
  | _ => Raise TypeError
  end.

(** [v[0]] *)
Definition getitem0 (v : json) : result json :=
  match v with
  | JArr items => index_first items
  | JStr s => index_first (map JStr (Str.chars s))
  | JObj _ => Raise (KeyError "0")
  | _ => Raise TypeError
  end.

(** [for x in v]: the values the loop variable takes. *)
Definition iterate (v : json) : result (list json) :=
  match v with
  | JArr items => Ok items
  | JObj fields => Ok (map (fun kv => JStr (fst kv)) fields)
  | JStr s => Ok (map JStr (Str.chars s))
  | _ => Raise TypeError
  end.

(** ** The tabular dataset *)

(** A pandas [DataFrame]: the column labels and, for each of them in
    order, the column's values; [df_len] is the length of the index. *)
Record DataFrame : Type := {
  df_columns : list string;
  df_len : nat;
  df_data : list (list json)
}.

Fixpoint assoc_get {A} (d : list (string * A)) (k : string) : option A :=
  match d with
  | [] => None
  | (k', v) :: rest => if String.eqb k' k then Some v else assoc_get rest k
  end.

(** [pd.DataFrame(d, columns=columns)] for a dict of lists: the lists must
    have one length; a label that is no key of [d] gives a column of NaN. *)
Definition pd_DataFrame (d : list (string * list json)) (columns : list string)
  : result DataFrame :=
  let n := match d with [] => O | (_, l) :: _ => length l end in
  if forallb (fun kv => Nat.eqb (length (snd kv)) n) d
  then Ok {| df_columns := columns;
             df_len := n;
             df_data := map (fun c => match assoc_get d c with
                                      | Some l => l
                                      | None => repeat (JFloat "nan") n
                                      end) columns |}
  else Raise ValueError.

(** Row [i] of a frame, and all its rows in index order. *)
Definition df_row (df : DataFrame) (i : nat) : list json :=
  map (fun col => nth i col JNull) (df_data df).

Definition df_rows (df : DataFrame) : list (list json) :=
  map (df_row df) (seq 0 (df_len df)).

Definition newline : string := String (ascii_of_nat 10) EmptyString.

(** [df.to_csv(path, index=False)]: a header line with the labels, then a
    line per row; [cell_text] is pandas' text for one cell (quoting
    included).  The labels of this program need no quoting. *)
Definition to_csv (cell_text : json -> string) (df : DataFrame) : string :=
  Str.join "," (df_columns df) +:+ newline +:+
  fold_right (fun row rest => Str.join "," (map cell_text row) +:+ newline +:+ rest)
             EmptyString (df_rows df).

(** ** The projection of [transform] (lines 140 to 170) *)

Local Open Scope result_scope.

(** The six lists the loop appends to. *)
Record song_lists : Type := {
  song_names : list json;
  album_names : list json;
  artist_names : list json;
  songs_duration_ms : list json;
  songs_popularity : list json;
  played_at_list : list json
}.

Definition empty_lists : song_lists :=
  {| song_names := []; album_names := []; artist_names := [];
     songs_duration_ms := []; songs_popularity := []; played_at_list := [] |}.

(** One iteration of the loop: six appends, each after evaluating its
    subscript chain left to right. *)
Definition loop_body (acc : song_lists) (song : json) : result song_lists :=
  let? track := getitem song "track" in
  let? name := getitem track "name" in
  let song_names' := song_names acc ++ [name] in
  let? track := getitem song "track" in
  let? album := getitem track "album" in
  let? album_name := getitem album "name" in
  let album_names' := album_names acc ++ [album_name] in
  let? track := getitem song "track" in
  let? album := getitem track "album" in
  let? artists := getitem album "artists" in
  let? artist := getitem0 artists in
  let? artist_name := getitem artist "name" in
  let artist_names' := artist_names acc ++ [artist_name] in
  let? track := getitem song "track" in
  let? duration := getitem track "duration_ms" in
  let songs_duration_ms' := songs_duration_ms acc ++ [duration] in
  let? track := getitem song "track" in
  let? popularity := getitem track "popularity" in
  let songs_popularity' := songs_popularity acc ++ [popularity] in
  let? played_at := getitem song "played_at" in
  Ok {| song_names := song_names';
        album_names := album_names';
        artist_names := artist_names';
        songs_duration_ms := songs_duration_ms';
        songs_popularity := songs_popularity';
        played_at_list := played_at_list acc ++ [played_at] |}.

Fixpoint for_each (songs : list json) (acc : song_lists) : result song_lists :=
  match songs with
  | [] => Ok acc
  | song :: rest =>
      let? acc' := loop_body acc song in
      for_each rest acc'
  end.

Definition column_labels : list string :=
  ["song_name"; "album_name"; "artist_name"; "duration_ms"; "popularity"; "played_at"].

Definition song_dict (acc : song_lists) : list (string * list json) :=
  [("song_name", song_names acc);
   ("album_name", album_names acc);
   ("artist_name", artist_names acc);
   ("duration_ms", songs_duration_ms acc);
   ("popularity", songs_popularity acc);
   ("played_at", played_at_list acc)].

(** From the parsed document to [song_df]. *)
Definition build_song_df (data : json) : result DataFrame :=
  let? items := getitem data "items" in
  let? songs := iterate items in
  let? acc := for_each songs empty_lists in
  pd_DataFrame (song_dict acc) column_labels.

(** ** The world outside the program *)

(** What a local file or a remote object holds: the serialisation of a
    JSON document ([json.dump], then [json.load], give the document back),
    or other text, which [json.load] rejects. *)
Inductive file_content : Type :=
| JsonText (d : json)
| PlainText (s : string).

(** A row of the warehouse table under the schema of the load job:
    STRING, STRING, STRING, INTEGER, INTEGER, TIMESTAMP (microseconds);
    [None] is NULL. *)
Record row : Type := {
  song_name : option string;
  album_name : option string;
  artist_name : option string;
  duration_ms : option Z;
  popularity : option Z;
  played_at : option Z
}.

#[global] Instance row_eq_dec : EqDecision row.
Proof. solve_decision. Defined.

(** The two queries the program sends: the count of all the rows of a
    table, and the replacement of a table [target] by the distinct rows
    of a table [from] (CREATE OR REPLACE TABLE .. AS SELECT DISTINCT). *)
Inductive sql : Type :=
| SelectCount (from : string)
| CreateOrReplaceDistinct (target from : string).

(** GET /v1/me/player/recently-played?after=..&limit=.. with its
    Authorization header. *)
Record http_request : Type := {
  after : Z;
  limit : Z;
  authorization : string
}.

(** A response: its status and what [.json()] gives on its body. *)
Record http_response : Type := {
  status_code : Z;
  body_json : result json
}.

(** A reading of the clock: seconds since the epoch, and the text
    [strftime("%Y-%m-%d_%H-%M-%S")] gives for it. *)
Record datetime : Type := {
  epoch_seconds : Z;
  stamp : string
}.

(** What the program prints. *)
Inductive message : Type :=
| MsgException (e : exn)
| MsgLocalPath (path : string)
| MsgObjectKey (key : string)
| MsgDatasetExists (dataset_id : string)
| MsgDatasetCreated (dataset_id : string)
| MsgNewRecords (delta : Z) (table_id : string).

(** The requests the program sends to the services, in order. *)
Inductive call : Type :=
| HttpGet (req : http_request)
| GcsGetBucket (bucket : string)
| GcsUpload (bucket key path : string)
| GcsDownload (bucket key path : string)
| BqQuery (q : sql)
| BqLoad (uri table_id : string).

#[global] Instance sql_eq_dec : EqDecision sql.
Proof. solve_decision. Defined.
#[global] Instance http_request_eq_dec : EqDecision http_request.
Proof. solve_decision. Defined.
#[global] Instance call_eq_dec : EqDecision call.
Proof. solve_decision. Defined.

(** The two places a storage client is made and a bucket is fetched:
    the download in [transform], and [upload_object_to_bucket]. *)
Inductive phase : Type := Fetch | Store.

#[global] Instance phase_eq_dec : EqDecision phase.
Proof. solve_decision. Defined.

(** The library calls that can fail for reasons outside the state kept
    here (network, credentials, quota, disk). *)
Inductive site : Type :=
| StorageClient (p : phase) | GetBucket (p : phase)
| UploadFromFilename | DownloadToFilename
| Makedirs | OpenWrite | OpenRead | ToCsv | Rmtree
| BigqueryClient | GetDataset | CreateDataset | GetTable
| QueryCountBefore | IterCountBefore
| LoadTableFromUri | LoadJobResult
| QueryRemoveDuplicates | RemoveDuplicatesResult
| QueryCountAfter | IterCountAfter.

#[global] Instance site_eq_dec : EqDecision site.
Proof. solve_decision. Defined.

(** What one invocation of a stage is given from outside.  A library call
    fails when [faults] says so, or when what it has to read is not
    there. *)
Record env : Type := {
  SPOTIFY_SECRET : string;
  project : string;
  clock : nat -> datetime;
  api : http_request -> result http_response;
  cell_text : json -> string;
  ingest : string -> result (list row);
  faults : site -> option exn
}.

(** The state the stages act on. *)
Record world : Type := {
  local_files : gmap string file_content;
  local_dirs : gset string;
  buckets : gset string;
  objects : gmap (string * string) file_content;
  datasets : gset string;
  tables : gmap string (list row);
  ticks : nat;
  stdout : list message;
  calls : list call
}.

(** ** Stateful computations that may raise *)

Definition M (A : Type) : Type := world -> result A * world.

Definition ret {A} (a : A) : M A := fun w => (Ok a, w).

Definition raise {A} (e : exn) : M A := fun w => (Raise e, w).

Definition bind {A B} (m : M A) (k : A -> M B) : M B :=
  fun w => match m w with
           | (Ok a, w') => k a w'
           | (Raise e, w') => (Raise e, w')
           end.

Definition lift {A} (r : result A) : M A := fun w => (r, w).

Declare Scope prog_scope.
Delimit Scope prog_scope with prog.
Notation "'do' x <- m ; k" := (bind m (fun x => k))
  (at level 10, x name, m at level 100, k at level 200) : prog_scope.
Notation "'do' ' p <- m ; k" := (bind m (fun x => match x with p => k end))
  (at level 10, p pattern, m at level 100, k at level 200) : prog_scope.
Local Open Scope prog_scope.

(** The first handler whose class test accepts the exception. *)
Fixpoint find_handler {A} (handlers : list ((exn -> bool) * (exn -> M A))) (e : exn)
  : option (exn -> M A) :=
  match handlers with
  | [] => None
  | (accepts, h) :: rest => if accepts e then Some h else find_handler rest e
  end.

(** [try: body except C1 as e: h1 except C2 as e: h2 ...] *)
Definition try_except {A} (body : M A) (handlers : list ((exn -> bool) * (exn -> M A)))
  : M A :=
  fun w => match body w with
           | (Ok a, w') => (Ok a, w')
           | (Raise e, w') =>
               match find_handler handlers e with
               | Some h => h e w'
               | None => (Raise e, w')
               end
           end.

Definition get_world : M world := fun w => (Ok w, w).

Definition print (m : message) : M unit :=
  fun w => (Ok tt, {| local_files := local_files w; local_dirs := local_dirs w;
                      buckets := buckets w; objects := objects w;
                      datasets := datasets w; tables := tables w;
                      ticks := ticks w;
                      stdout := stdout w ++ [m]; calls := calls w |}).

Definition record_call (c : call) : M unit :=
  fun w => (Ok tt, {| local_files := local_files w; local_dirs := local_dirs w;
                      buckets := buckets w; objects := objects w;
                      datasets := datasets w; tables := tables w;
                      ticks := ticks w;
                      stdout := stdout w; calls := calls w ++ [c] |}).

Definition set_local_files (f : gmap string file_content) : M unit :=
  fun w => (Ok tt, {| local_files := f; local_dirs := local_dirs w;
                      buckets := buckets w; objects := objects w;
                      datasets := datasets w; tables := tables w;
                      ticks := ticks w;
                      stdout := stdout w; calls := calls w |}).

Definition set_local_dirs (d : gset string) : M unit :=
  fun w => (Ok tt, {| local_files := local_files w; local_dirs := d;
                      buckets := buckets w; objects := objects w;
                      datasets := datasets w; tables := tables w;
                      ticks := ticks w;
                      stdout := stdout w; calls := calls w |}).

Definition set_objects (o : gmap (string * string) file_content) : M unit :=
  fun w => (Ok tt, {| local_files := local_files w; local_dirs := local_dirs w;
                      buckets := buckets w; objects := o;
                      datasets := datasets w; tables := tables w;
                      ticks := ticks w;
                      stdout := stdout w; calls := calls w |}).

Definition set_datasets (d : gset string) : M unit :=
  fun w => (Ok tt, {| local_files := local_files w; local_dirs := local_dirs w;
                      buckets := buckets w; objects := objects w;
                      datasets := d; tables := tables w;
                      ticks := ticks w;
                      stdout := stdout w; calls := calls w |}).

Definition set_tables (t : gmap string (list row)) : M unit :=
  fun w => (Ok tt, {| local_files := local_files w; local_dirs := local_dirs w;
                      buckets := buckets w; objects := objects w;
                      datasets := datasets w; tables := t;
                      ticks := ticks w;
                      stdout := stdout w; calls := calls w |}).

Definition tick : M nat :=
  fun w => (Ok (ticks w),
            {| local_files := local_files w; local_dirs := local_dirs w;
               buckets := buckets w; objects := objects w;
               datasets := datasets w; tables := tables w;
               ticks := S (ticks w);
               stdout := stdout w; calls := calls w |}).

(** The fault plan's say at a call site. *)
Definition fault (E : env) (s : site) : M unit :=
  match faults E s with
  | Some e => raise e
  | None => ret tt
  end.

(** [exit()] *)
Definition exit {A} : M A := raise SystemExit.

(** ** The services, as the program calls them *)

Definition raw_dir : string := "/home/airflow/spotify_data/raw/".
Definition transformed_dir : string := "/home/airflow/spotify_data/transformed/".
Definition scratch_root : string := "/home/airflow/spotify_data/".

(** The directories on the way to [s], [s] included when it ends in a
    slash; [pre] is what precedes [s]. *)
Fixpoint dir_prefixes (pre s : string) : list string :=
  match s with
  | EmptyString => []
  | String c s' =>
      let pre' := pre +:+ String c EmptyString in
      if Ascii.eqb c "/" then pre' :: dir_prefixes pre' s'
      else dir_prefixes pre' s'
  end.

(** [storage.Client()] *)
Definition storage_Client (E : env) (p : phase) : M unit := fault E (StorageClient p).

(** [client.get_bucket(name)]: the bucket, or NotFound. *)
Definition get_bucket (E : env) (p : phase) (bucket_name : string) : M (option string) :=
  do _ <- record_call (GcsGetBucket bucket_name);
  do _ <- fault E (GetBucket p);
  do w <- get_world;
  if decide (bucket_name ∈ buckets w) then ret (Some bucket_name)
  else raise NotFound.

(** [bucket.blob(key).upload_from_filename(path)] *)
Definition upload_from_filename (E : env) (bucket key path : string) : M unit :=
  do _ <- record_call (GcsUpload bucket key path);
  do w <- get_world;
  match local_files w !! path with
  | None => raise FileNotFoundError
  | Some c =>
      do _ <- fault E UploadFromFilename;
      do w <- get_world;
      set_objects (<[(bucket, key) := c]> (objects w))
  end.

(** [bucket.blob(key).download_to_filename(path)] *)
Definition download_to_filename (E : env) (bucket key path : string) : M unit :=
  do _ <- record_call (GcsDownload bucket key path);
  do _ <- fault E DownloadToFilename;
  do w <- get_world;
  match objects w !! (bucket, key) with
  | None => raise NotFound
  | Some c => set_local_files (<[path := c]> (local_files w))
  end.

(** [os.path.exists(p)] for a directory *)
Definition os_path_exists (p : string) : M bool :=
  do w <- get_world;
  ret (bool_decide (p ∈ local_dirs w)).

(** [os.makedirs(p)] *)
Definition os_makedirs (E : env) (p : string) : M unit :=
  do _ <- fault E Makedirs;
  do w <- get_world;
  set_local_dirs (local_dirs w ∪ list_to_set (dir_prefixes EmptyString p)).

(** Writing a whole file: [open(path, 'w+')] with [json.dump], or [to_csv]. *)
Definition write_file (E : env) (s : site) (path : string) (c : file_content) : M unit :=
  do _ <- fault E s;
  do w <- get_world;
  set_local_files (<[path := c]> (local_files w)).

(** [open(path)] and reading it all *)
Definition open_read (E : env) (path : string) : M file_content :=
  do _ <- fault E OpenRead;
  do w <- get_world;
  match local_files w !! path with
  | Some c => ret c
  | None => raise FileNotFoundError
  end.

(** [json.load(file)] *)
Definition json_load (c : file_content) : M json :=
  match c with
  | JsonText d => ret d
  | PlainText _ => raise JSONDecodeError
  end.

(** [shutil.rmtree(root)]: everything under [root] goes. *)
Definition shutil_rmtree (E : env) (root : string) : M unit :=
  do _ <- fault E Rmtree;
  do w <- get_world;
  do _ <- set_local_files
            (filter (fun kv => Str.startswith root (fst kv) = false) (local_files w));
  set_local_dirs (filter (fun p => Str.startswith root p = false) (local_dirs w)).

(** [datetime.datetime.now()] *)
Definition datetime_now (E : env) : M datetime :=
  do n <- tick;
  ret (clock E n).

(** [requests.get(url, headers=headers)] *)
Definition requests_get (E : env) (req : http_request) : M http_response :=
  do _ <- record_call (HttpGet req);
  lift (api E req).

(** [bigquery.Client()] *)
Definition bigquery_Client (E : env) : M unit := fault E BigqueryClient.

(** [client.get_dataset(dataset_id)], in the client's project *)
Definition get_dataset (E : env) (dataset_id : string) : M unit :=
  do _ <- fault E GetDataset;
  do w <- get_world;
  if decide ((project E +:+ "." +:+ dataset_id) ∈ datasets w) then ret tt
  else raise NotFound.

(** [client.create_dataset(bigquery.Dataset(full_id), timeout=30)] *)
Definition create_dataset (E : env) (full_id : string) : M unit :=
  do _ <- fault E CreateDataset;
  do w <- get_world;
  if decide (full_id ∈ datasets w) then raise (GoogleAPIError 409)
  else set_datasets ({[full_id]} ∪ datasets w).

(** [client.get_table(table_id)] *)
Definition get_table (E : env) (table_id : string) : M unit :=
  do _ <- fault E GetTable;
  do w <- get_world;
  match tables w !! table_id with
  | Some _ => ret tt
  | None => raise NotFound
  end.

(** [SELECT DISTINCT *] on the rows of a table. *)
Definition select_distinct (rows : list row) : list row := remove_dups rows.

(** [client.query(q)]: the job is submitted at site [s]. *)
Definition client_query (E : env) (s : site) (q : sql) : M sql :=
  do _ <- record_call (BqQuery q);
  do _ <- fault E s;
  ret q.

(** Waiting for a query job, by [.result()] or by iterating over it: its
    effect on the tables and the rows it returns. *)
Definition query_result (E : env) (s : site) (job : sql) : M (list (list Z)) :=
  do _ <- fault E s;
  do w <- get_world;
  match job with
  | SelectCount from =>
      match tables w !! from with
      | Some rows => ret [[Z.of_nat (length rows)]]
      | None => raise NotFound
      end
  | CreateOrReplaceDistinct target from =>
      match tables w !! from with
      | Some rows =>
          do _ <- set_tables (<[target := select_distinct rows]> (tables w));
          ret []
      | None => raise NotFound
      end
  end.

(** [client.load_table_from_uri(uri, table_id, job_config=job_config)] *)
Definition load_table_from_uri (E : env) (uri table_id : string) : M (string * string) :=
  do _ <- record_call (BqLoad uri table_id);
  do _ <- fault E LoadTableFromUri;
  ret (uri, table_id).

(** [load_job.result()]: the rows read from the object are appended. *)
Definition load_job_result (E : env) (job : string * string) : M unit :=
  do _ <- fault E LoadJobResult;
  do rows <- lift (ingest E (fst job));
  do w <- get_world;
  set_tables (<[snd job := default [] (tables w !! snd job) ++ rows]> (tables w)).

(** [for row in job: count = count + row[0]] *)
Fixpoint sum_first_column (rows : list (list Z)) (count : Z) : result Z :=
  match rows with
  | [] => Ok count
  | r :: rest =>
      match index_first r with
      | Ok c => sum_first_column rest (count + c)
      | Raise e => Raise e
      end
  end.

(** ** [upload_object_to_bucket] (lines 32 to 61) *)

Definition is_FileNotFoundError (e : exn) : bool :=
  match e with FileNotFoundError => true | _ => false end.

(** The [try] block gives [Some b] when it executes [return b], and
    [None] when control falls through to the code after it. *)
Definition upload_try (E : env) (bucket_name object_path file_name : string)
  : M (option bool) :=
  do _ <- storage_Client E Store;
  do bucket <- get_bucket E Store bucket_name;
  match bucket with
  | None => ret (Some false)
  | Some b =>
      do _ <- upload_from_filename E b file_name object_path;
      ret None
  end.

Definition upload_object_to_bucket (E : env) (bucket_name object_path : string)
    (object_key : option string) : M bool :=
  let file_name := match object_key with None => object_path | Some k => k end in
  do returned <-
    try_except
      (upload_try E bucket_name object_path file_name)
      [(is_Exception, fun e => do _ <- print (MsgException e); ret (Some false));
       (is_FileNotFoundError, fun e => do _ <- print (MsgException e); ret (Some false))];
  match returned with
  | Some b => ret b
  | None => ret true
  end.

(** ** [extract_spotify_data] (lines 63 to 105) *)

(** [int((today - timedelta(days=1)).timestamp())*1000]: a day is taken
    as 86400 seconds, as it is when the clock is not changed in between. *)
Definition yesterdays_timestamp (today : datetime) : Z :=
  (epoch_seconds today - 86400) * 1000.

Definition extract_spotify_data (E : env) (bucket_name : string) : M string :=
  let bearer := "Bearer " +:+ SPOTIFY_SECRET E in
  do today <- datetime_now E;
  do request <- requests_get E {| after := yesterdays_timestamp today;
                                  limit := 50;
                                  authorization := bearer |};
  do data <- lift (body_json request);
  do now <- datetime_now E;
  let date := stamp now in
  do present <- os_path_exists raw_dir;
  do _ <- (if present then ret tt else os_makedirs E raw_dir);
  let file_name := raw_dir +:+ date +:+ "_spotify_data.json" in
  do _ <- write_file E OpenWrite file_name (JsonText data);
  let object_key := "raw/" +:+ date +:+ "_spotify_data.json" in
  do _ <- upload_object_to_bucket E bucket_name file_name (Some object_key);
  let full_object_key := bucket_name +:+ "/" +:+ object_key in
  ret full_object_key.

(** ** [transform] (lines 107 to 190)

    [json_object_key] is what [ti.xcom_pull] gives: the value the extract
    task returned. *)

(** Lines 114 to 130, the body of the [try]: the names derived from
    the locator, and the download. *)
Definition transform_try (E : env) (json_object_key : string)
  : M (list string * string * string) :=
  do _ <- storage_Client E Fetch;
  let full_object_key_splited := Str.split "/" json_object_key in
  do bucket_name <- lift (index_first full_object_key_splited);
  let object_key := Str.replace (bucket_name +:+ "/") EmptyString json_object_key in
  do base <- lift (index_last full_object_key_splited);
  let local_path := raw_dir +:+ base in
  do _ <- print (MsgLocalPath local_path);
  do bucket <- get_bucket E Fetch bucket_name;
  match bucket with
  | None => raise AttributeError
  | Some b =>
      do _ <- download_to_filename E b object_key local_path;
      ret (full_object_key_splited, bucket_name, local_path)
  end.

(** Lines 113 to 133: the [try] with its handler, which prints and exits. *)
Definition transform_download (E : env) (json_object_key : string)
  : M (list string * string * string) :=
  try_except
    (transform_try E json_object_key)
    [(is_Exception, fun e => do _ <- print (MsgException e); exit)].

(** Lines 136 to 138: opening and parsing the downloaded file. *)
Definition transform_parse (E : env) (local_path : string) : M json :=
  do file <- open_read E local_path;
  json_load file.

Definition transform (E : env) (json_object_key : string) : M string :=
  do '(full_object_key_splited, bucket_name, local_path) <-
       transform_download E json_object_key;
  do data <- transform_parse E local_path;
  do song_df <- lift (build_song_df data);
  do present <- os_path_exists transformed_dir;
  do _ <- (if present then ret tt else os_makedirs E transformed_dir);
  do base <- lift (index_last full_object_key_splited);
  do stem <- lift (index_first (Str.rsplit1 "." base));
  let file_name := stem +:+ ".csv" in
  let local_path := transformed_dir +:+ file_name in
  do _ <- write_file E ToCsv local_path (PlainText (to_csv (cell_text E) song_df));
  let object_key := "transformed/" +:+ file_name in
  do _ <- upload_object_to_bucket E bucket_name local_path (Some object_key);
  do _ <- shutil_rmtree E scratch_root;
  let full_object_key := bucket_name +:+ "/" +:+ object_key in
  ret full_object_key.

(** ** [load] (lines 192 to 274)

    [csv_object_key] is what [ti.xcom_pull] gives: the value the transform
    task returned. *)

Definition dataset_id : string := "Spotify_Data".

Definition table_id (E : env) : string :=
  project E +:+ "." +:+ dataset_id +:+ ".recently_played".

(** Lines 202 to 212: [Some b] when [return b] is executed. *)
Definition load_ensure_dataset (E : env) : M (option bool) :=
  try_except
    (do _ <- get_dataset E dataset_id;
     do _ <- print (MsgDatasetExists dataset_id);
     ret None)
    [(is_NotFound, fun _ =>
        try_except
          (do _ <- create_dataset E (project E +:+ ".Spotify_Data");
           do _ <- print (MsgDatasetCreated dataset_id);
           ret None)
          [(is_Exception, fun e => do _ <- print (MsgException e); ret (Some false))])].

(** Lines 258 to 261: the deduplication rewrite. *)
Definition remove_duplicates (E : env) (table_id : string) : M unit :=
  do remove_duplicates_job <-
       client_query E QueryRemoveDuplicates (CreateOrReplaceDistinct table_id table_id);
  do _ <- query_result E RemoveDuplicatesResult remove_duplicates_job;
  ret tt.

(** Lines 216 to 269, the body of the second [try]. *)
Definition load_try (E : env) (csv_object_key : string) : M (option bool) :=
  let table_id := table_id E in
  do _ <- get_table E table_id;
  do query_count_job <- client_query E QueryCountBefore (SelectCount table_id);
  do rows <- query_result E IterCountBefore query_count_job;
  do start_count <- lift (sum_first_column rows 0);
  do _ <- print (MsgObjectKey csv_object_key);
  let uri := "gs://" +:+ csv_object_key in
  do load_job <- load_table_from_uri E uri table_id;
  do _ <- load_job_result E load_job;
  do _ <- remove_duplicates E table_id;
  do query_count_job <- client_query E QueryCountAfter (SelectCount table_id);
  do rows <- query_result E IterCountAfter query_count_job;
  do end_count <- lift (sum_first_column rows 0);
  do _ <- print (MsgNewRecords (end_count - start_count) table_id);
  ret None.

(** Lines 214 to 272: the [try] with its handler. *)
Definition load_into_table (E : env) (csv_object_key : string) : M (option bool) :=
  try_except
    (load_try E csv_object_key)
    [(is_Exception, fun e => do _ <- print (MsgException e); ret (Some false))].

Definition load (E : env) (csv_object_key : string) : M bool :=
  do _ <- bigquery_Client E;
  do returned <- load_ensure_dataset E;
  match returned with
  | Some b => ret b
  | None =>
      do returned <- load_into_table E csv_object_key;
      match returned with
      | Some b => ret b
      | None => ret true
      end
  end.

(** ** The first two tasks of the DAG (lines 278 to 306)

    [extraction >> transformation]: the extract task is called with
    [bucket_name = BUCKET], and the transform task pulls its return
    value.  Each task has its own fault plan. *)

Definition BUCKET : string := "poc_etl".

Definition extract_then_transform (E1 E2 : env) : M string :=
  do json_object_key <- extract_spotify_data E1 BUCKET;
  transform E2 json_object_key.

(** ** The three tasks of the DAG (line 306)

    [begin >> extraction >> transformation >> load_data_into_bq >> end]:
    each task pulls what the task before it returned, and a task that
    raises keeps the later ones from running.  Each task has its own
    fault plan. *)

Definition dag_run (E1 E2 E3 : env) : M bool :=
  do json_object_key <- extract_spotify_data E1 BUCKET;
  do csv_object_key <- transform E2 json_object_key;
  load E3 csv_object_key.

(** ** Notions the statements use *)

Local Open Scope result_scope.

(** The six fields of a play-history entry. *)
Definition track_name (song : json) : result json :=
  let? track := getitem song "track" in
  getitem track "name".

Definition track_album_name (song : json) : result json :=
  let? track := getitem song "track" in
  let? album := getitem track "album" in
  getitem album "name".

Definition album_artists (song : json) : result json :=
  let? track := getitem song "track" in
  let? album := getitem track "album" in
  getitem album "artists".

Definition first_artist_name (song : json) : result json :=
  let? artists := album_artists song in
  let? artist := getitem0 artists in
  getitem artist "name".

Definition track_duration_ms (song : json) : result json :=
  let? track := getitem song "track" in
  getitem track "duration_ms".

Definition track_popularity (song : json) : result json :=
  let? track := getitem song "track" in
  getitem track "popularity".

Definition entry_played_at (song : json) : result json :=
  getitem song "played_at".

(** The row an entry stands for, when the entry has all six fields. *)
Definition entry_fields (song : json) : result (list json) :=
  let? name := track_name song in
  let? album := track_album_name song in
  let? artist := first_artist_name song in
  let? duration := track_duration_ms song in
  let? popularity := track_popularity song in
  let? played := entry_played_at song in
  Ok [name; album; artist; duration; popularity; played].

(** The header line of the delimited file. *)
Definition header_line : string :=
  "song_name,album_name,artist_name,duration_ms,popularity,played_at" +:+ newline.

(** The names [transform] derives from a locator. *)
Definition locator_bucket (key : string) : string :=
  hd EmptyString (Str.split "/" key).

Definition locator_basename (key : string) : string :=
  List.last (Str.split "/" key) EmptyString.

Definition locator_object_key (key : string) : string :=
  Str.replace (locator_bucket key +:+ "/") EmptyString key.

Definition csv_file_name (key : string) : string :=
  hd EmptyString (Str.rsplit1 "." (locator_basename key)) +:+ ".csv".

(** Fault plans. *)
Definition all_sites : list site :=
  [StorageClient Fetch; StorageClient Store; GetBucket Fetch; GetBucket Store;
   UploadFromFilename; DownloadToFilename;
   Makedirs; OpenWrite; OpenRead; ToCsv; Rmtree;
   BigqueryClient; GetDataset; CreateDataset; GetTable;
   QueryCountBefore; IterCountBefore; LoadTableFromUri; LoadJobResult;
   QueryRemoveDuplicates; RemoveDuplicatesResult; QueryCountAfter; IterCountAfter].

(** No fault at a site. *)
Definition quiet (E : env) (s : site) : bool :=
  match faults E s with None => true | Some _ => false end.

(** A fault at a site, if any, is an instance of [Exception]. *)
Definition ordinary (E : env) (s : site) : bool :=
  match faults E s with None => true | Some e => is_Exception e end.

(** The sites inside [upload_object_to_bucket]. *)
Definition upload_site (s : site) : bool :=
  match s with
  | StorageClient Store | GetBucket Store | UploadFromFilename => true
  | _ => false
  end.

Definition no_faults (E : env) : bool := forallb (quiet E) all_sites.


(** No fault outside [upload_object_to_bucket], and ordinary ones in it. *)
Definition only_upload_faults (E : env) : bool :=
  forallb (fun s => if upload_site s then ordinary E s else quiet E s) all_sites.

(** Nothing stands in the way of an upload: no fault in the helper, the
    bucket is there and so is the local file. *)
Definition upload_unhindered (E : env) (w : world) (bucket_name object_path : string)
  : bool :=
  quiet E (StorageClient Store) && quiet E (GetBucket Store) &&
  quiet E UploadFromFilename &&
  bool_decide (bucket_name ∈ buckets w) &&
  bool_decide (is_Some (local_files w !! object_path)).

(** The same, for the upload of a file that is known to be there. *)
Definition upload_possible (E : env) (w : world) (bucket_name : string) : bool :=
  quiet E (StorageClient Store) && quiet E (GetBucket Store) &&
  quiet E UploadFromFilename &&
  bool_decide (bucket_name ∈ buckets w).

(** The request [extract_spotify_data] sends when started in [w]. *)
Definition extract_request (E : env) (w : world) : http_request :=
  {| after := yesterdays_timestamp (clock E (ticks w));
     limit := 50;
     authorization := "Bearer " +:+ SPOTIFY_SECRET E |}.

(** The key and the locator of the raw object of a run started in [w]. *)
Definition raw_object_key (E : env) (w : world) : string :=
  "raw/" +:+ stamp (clock E (S (ticks w))) +:+ "_spotify_data.json".

Definition raw_locator (E : env) (w : world) (bucket_name : string) : string :=
  bucket_name +:+ "/" +:+ raw_object_key E w.

(** The locator of the raw object [name].json in [bucket]. *)
Definition raw_key_of (bucket name : string) : string :=
  bucket +:+ "/raw/" +:+ name +:+ ".json".

(** The locator [transform] returns for a locator it was given. *)
Definition transformed_object_key (key : string) : string :=
  "transformed/" +:+ csv_file_name key.

Definition transformed_locator (key : string) : string :=
  locator_bucket key +:+ "/" +:+ transformed_object_key key.

(** [get_dataset] answers, or fails with NotFound. *)
Definition dataset_lookup_plain (E : env) : bool :=
  match faults E GetDataset with None => true | Some e => is_NotFound e end.







(** The number [load] printed as new records, if it printed one last. *)
Definition reported_new_records (w : world) : option Z :=
  match List.last (stdout w) (MsgLocalPath EmptyString) with
  | MsgNewRecords delta _ => Some delta
  | _ => None
  end.

(** The requests of a trace that are uploads, and those that go to the API. *)
Definition is_upload (c : call) : bool :=
  match c with GcsUpload _ _ _ => true | _ => false end.

Definition is_http (c : call) : bool :=
  match c with HttpGet _ => true | _ => false end.

(** ** Further notions *)

(** The exceptions of a subscript or of an iteration: KeyError,
    TypeError and IndexError. *)
Definition is_projection_error (e : exn) : bool :=
  match e with
  | KeyError _ | TypeError | IndexError => true
  | _ => false
  end.

(** The six lists of the loop have one length. *)
Definition same_lengths (acc : song_lists) : Prop :=
  length (album_names acc) = length (song_names acc) /\
  length (artist_names acc) = length (song_names acc) /\
  length (songs_duration_ms acc) = length (song_names acc) /\
  length (songs_popularity acc) = length (song_names acc) /\
  length (played_at_list acc) = length (song_names acc).

(** The frame with the six columns and no row. *)
Definition empty_frame : DataFrame :=
  {| df_columns := column_labels; df_len := 0; df_data := [[]; []; []; []; []; []] |}.

Definition is_list (v : json) : bool :=
  match v with JArr _ => true | _ => false end.

(** The values other than a list over which a [for] loop runs no round. *)
Definition is_empty_dict_or_str (v : json) : bool :=
  match v with
  | JObj [] => true
  | JStr EmptyString => true
  | _ => false
  end.

(** The bucket names that, followed by a slash, occur in [raw/]. *)
Definition suffix_of_raw (bucket : string) : bool :=
  String.eqb bucket "raw" || String.eqb bucket "aw" || String.eqb bucket "w"
  || String.eqb bucket EmptyString.

(** What [replace] leaves of the leading [raw/] of the object key. *)
Definition raw_prefix_left (bucket : string) : string :=
  if String.eqb bucket "raw" then EmptyString
  else if String.eqb bucket "aw" then "r"
  else if String.eqb bucket "w" then "ra"
  else if String.eqb bucket EmptyString then "raw"
  else "raw/".



(** A computation that leaves a part [f] of the world as it found it. *)
Definition preserves {A B} (f : world -> B) (m : M A) : Prop :=
  forall w, f (snd (m w)) = f w.

(** The local file of the raw document of a run started in [w]. *)
Definition raw_file_name (E : env) (w : world) : string :=
  raw_dir +:+ stamp (clock E (S (ticks w))) +:+ "_spotify_data.json".


(** The sites [load] passes before rows are appended to the table. *)
Definition before_append : list site :=
  [BigqueryClient; GetTable; QueryCountBefore; IterCountBefore;
   LoadTableFromUri; LoadJobResult].

(** The load job of [key] can run to its end in [w]. *)
Definition append_possible (E : env) (key : string) (w : world) : bool :=
  forallb (quiet E) before_append &&
  is_Ok (ingest E ("gs://" +:+ key)) &&
  bool_decide (is_Some (tables w !! table_id E)).

(** The key of the transformed object of a run started in [w]. *)
Definition csv_object_key (E : env) (w : world) : string :=
  "transformed/" +:+ stamp (clock E (S (ticks w))) +:+ "_spotify_data.csv".

(** ** Sample inputs *)

(** A fault plan from a list of sites and exceptions. *)
Definition plan (l : list (site * exn)) (s : site) : option exn :=
  snd <$> List.find (fun p => bool_decide (fst p = s)) l.

(** The document of the end-to-end scenario. *)
Definition sample_entry : json :=
  JObj [("track", JObj [("name", JStr "A");
                        ("album", JObj [("name", JStr "B");
                                        ("artists", JArr [JObj [("name", JStr "C")]])]);
                        ("duration_ms", JInt 1000);
                        ("popularity", JInt 50)]);
        ("played_at", JStr "2024-01-01T00:00:00Z")].

Definition sample_document : json := JObj [("items", JArr [sample_entry])].


(** An entry whose album has no artists. *)
Definition artistless_entry : json :=
  JObj [("track", JObj [("name", JStr "A");
                        ("album", JObj [("name", JStr "B"); ("artists", JArr [])]);
                        ("duration_ms", JInt 1000);
                        ("popularity", JInt 50)]);
        ("played_at", JStr "2024-01-01T00:00:00Z")].

Definition artistless_document : json := JObj [("items", JArr [sample_entry; artistless_entry])].

(** What the API answers to a request with an expired token. *)
Definition error_document : json :=
  JObj [("error", JObj [("status", JInt 401); ("message", JStr "The access token expired")])].

Definition sample_row : row :=
  {| song_name := Some "A"; album_name := Some "B"; artist_name := Some "C";
     duration_ms := Some 1000; popularity := Some 50;
     played_at := Some 1704067200000000 |}.

Definition sample_clock (n : nat) : datetime :=
  {| epoch_seconds := 1704153600 + Z.of_nat n; stamp := "2024-01-02_00-00-00" |}.

Definition sample_cell_text (v : json) : string :=
  match v with
  | JStr s => s
  | JInt 1000 => "1000"
  | JInt 50 => "50"
  | _ => EmptyString
  end.

(** An environment in which the API answers [status] and [body], the
    load job reads [rows], and the faults are those of [l]. *)
Definition sample_env (status : Z) (body : result json) (rows : result (list row))
    (l : list (site * exn)) : env :=
  {| SPOTIFY_SECRET := "token";
     project := "demo";
     clock := sample_clock;
     api := fun _ => Ok {| status_code := status; body_json := body |};
     cell_text := sample_cell_text;
     ingest := fun _ => rows;
     faults := plan l |}.


(** A world with the buckets [bs], one remote object, and one table. *)
Definition sample_world (bs : list string) (object : option (string * string * file_content))
    (table : option (list row)) : world :=
  {| local_files := ∅;
     local_dirs := ∅;
     buckets := list_to_set bs;
     objects := match object with Some (b, k, c) => {[(b, k) := c]} | None => ∅ end;
     datasets := {["demo.Spotify_Data"]};
     tables := match table with
               | Some rows => {["demo.Spotify_Data.recently_played" := rows]}
               | None => ∅
               end;
     ticks := 0;
     stdout := [];
     calls := [] |}.

(** ** Proof support *)

(** Unfolding the monad and the service calls, to run a stage by hand. *)
Ltac expose :=
  cbv [bind ret raise lift try_except find_handler exit get_world print record_call
       set_local_files set_local_dirs set_objects set_datasets set_tables tick fault
       storage_Client get_bucket upload_from_filename download_to_filename
       os_path_exists os_makedirs write_file open_read json_load shutil_rmtree
       datetime_now requests_get bigquery_Client get_dataset create_dataset get_table
       client_query query_result load_table_from_uri load_job_result].

#[local] Arguments upload_object_to_bucket : simpl never.

(** * Properties *)

(** ** The model on concrete inputs *)

Example split_locator :
  Str.split "/" "bucket/raw/x.json" = ["bucket"; "raw"; "x.json"].
Proof. reflexivity. Qed.

Example split_empty_parts :
  Str.split "/" "a//b/" = ["a"; EmptyString; "b"; EmptyString].
Proof. reflexivity. Qed.

Example rsplit1_last_dot : Str.rsplit1 "." "a.b.json" = ["a.b"; "json"].
Proof. reflexivity. Qed.

Example rsplit1_no_dot : Str.rsplit1 "." "name" = ["name"].
Proof. reflexivity. Qed.

Example replace_no_overlap : Str.replace "aa" "b" "aaaaa" = "bba".
Proof. reflexivity. Qed.

(** [replace] removes every occurrence of [bucket/], not only the
    leading one. *)
Example replace_every_occurrence : locator_object_key "w/raw/x.json" = "rax.json".
Proof. reflexivity. Qed.

Example locator_of_run : locator_object_key "poc_etl/raw/x.json" = "raw/x.json".
Proof. reflexivity. Qed.

(** The end-to-end scenario: one entry gives the row A, B, C, 1000, 50
    and its play time. *)
Example sample_rows :
  option_map df_rows (match build_song_df sample_document with
                      | Ok df => Some df
                      | Raise _ => None
                      end) =
  Some [[JStr "A"; JStr "B"; JStr "C"; JInt 1000; JInt 50; JStr "2024-01-01T00:00:00Z"]].
Proof. reflexivity. Qed.

Example sample_csv :
  option_map (to_csv sample_cell_text)
             (match build_song_df sample_document with
              | Ok df => Some df
              | Raise _ => None
              end) =
  Some (header_line +:+ "A,B,C,1000,50,2024-01-01T00:00:00Z" +:+ newline).
Proof. reflexivity. Qed.

Example string_items_are_iterated :
  build_song_df (JObj [("items", JStr "ab")]) = Raise TypeError.
Proof. reflexivity. Qed.

Example missing_items : build_song_df error_document = Raise (KeyError "items").
Proof. reflexivity. Qed.

Example sample_run :
  fst (extract_then_transform (sample_env 200 (Ok sample_document) (Ok []) [])
                              (sample_env 200 (Ok sample_document) (Ok []) [])
                              (sample_world [BUCKET] None None))
  = Ok "poc_etl/transformed/2024-01-02_00-00-00_spotify_data.csv".
Proof. vm_compute. reflexivity. Qed.

(** ** The projection *)

Lemma loop_body_fields (song : json) (r : list json) :
  entry_fields song = Ok r ->
  exists n a ar d p t,
    r = [n; a; ar; d; p; t] /\
    forall acc, loop_body acc song =
      Ok {| song_names := song_names acc ++ [n];
            album_names := album_names acc ++ [a];
            artist_names := artist_names acc ++ [ar];
            songs_duration_ms := songs_duration_ms acc ++ [d];
            songs_popularity := songs_popularity acc ++ [p];
            played_at_list := played_at_list acc ++ [t] |}.
Proof.
  unfold entry_fields, track_name, track_album_name, first_artist_name,
    album_artists, track_duration_ms, track_popularity, entry_played_at, loop_body.
  intros H.
  destruct (getitem song "track") as [track|] eqn:Ht; simpl in *; [|discriminate].
  destruct (getitem track "name") as [n|] eqn:Hn; simpl in *; [|discriminate].
  destruct (getitem track "album") as [album|] eqn:Ha; simpl in *; [|discriminate].
  destruct (getitem album "name") as [a|] eqn:Han; simpl in *; [|discriminate].
  destruct (getitem album "artists") as [artists|] eqn:Har; simpl in *; [|discriminate].
  destruct (getitem0 artists) as [artist|] eqn:H0; simpl in *; [|discriminate].
  destruct (getitem artist "name") as [ar|] eqn:Harn; simpl in *; [|discriminate].
  destruct (getitem track "duration_ms") as [d|] eqn:Hd; simpl in *; [|discriminate].
  destruct (getitem track "popularity") as [p|] eqn:Hp; simpl in *; [|discriminate].
  destruct (getitem song "played_at") as [t|] eqn:Hpl; simpl in *; [|discriminate].
  injection H as <-.
  exists n, a, ar, d, p, t. split; [reflexivity|]. intros acc. reflexivity.
Qed.






(** ** Strings *)

Lemma split_nonempty (sep : ascii) (s : string) : Str.split sep s <> [].
Proof.
  induction s as [|c s IH]; simpl; [discriminate|].
  destruct (Ascii.eqb c sep); [discriminate|].
  destruct (Str.split sep s); [contradiction|discriminate].
Qed.

Lemma index_first_hd {A} (l : list A) (d : A) : l <> [] -> index_first l = Ok (hd d l).
Proof. destruct l; [contradiction|reflexivity]. Qed.

Lemma index_last_last {A} (l : list A) (d : A) : l <> [] -> index_last l = Ok (List.last l d).
Proof.
  intros Hl. unfold index_last.
  destruct (exists_last Hl) as (l' & x & ->).
  rewrite rev_app_distr, last_last. reflexivity.
Qed.

Lemma locator_bucket_first (key : string) :
  index_first (Str.split "/" key) = Ok (locator_bucket key).
Proof. apply index_first_hd, split_nonempty. Qed.

Lemma locator_basename_last (key : string) :
  index_last (Str.split "/" key) = Ok (locator_basename key).
Proof. apply index_last_last, split_nonempty. Qed.

Lemma rsplit1_first (sep : ascii) (s : string) :
  index_first (Str.rsplit1 sep s) = Ok (hd EmptyString (Str.rsplit1 sep s)).
Proof. unfold Str.rsplit1. destruct (Str.cut_last sep s) as [[h t]|]; reflexivity. Qed.

Lemma split_lacks (sep : ascii) (s : string) :
  Str.lacks sep s = true -> Str.split sep s = [s].
Proof.
  induction s as [|c s IH]; simpl; [reflexivity|].
  intros [Hc Hs]%andb_prop. apply negb_true_iff in Hc. rewrite Hc, (IH Hs). reflexivity.
Qed.

Lemma split_app (sep : ascii) (a b : string) :
  Str.lacks sep a = true ->
  Str.split sep (a +:+ String sep b) = a :: Str.split sep b.
Proof.
  induction a as [|c a IH]; simpl.
  - intros _. rewrite Ascii.eqb_refl. reflexivity.
  - intros [Hc Ha]%andb_prop. apply negb_true_iff in Hc. rewrite Hc, (IH Ha). reflexivity.
Qed.

Lemma cut_last_lacks (sep : ascii) (s : string) :
  Str.lacks sep s = true -> Str.cut_last sep s = None.
Proof.
  induction s as [|c s IH]; simpl; [reflexivity|].
  intros [Hc Hs]%andb_prop. apply negb_true_iff in Hc. rewrite (IH Hs), Hc. reflexivity.
Qed.

Lemma cut_last_app (sep : ascii) (a t : string) :
  Str.lacks sep t = true ->
  Str.cut_last sep (a +:+ String sep t) = Some (a, t).
Proof.
  intros Ht. induction a as [|c a IH]; simpl.
  - rewrite (cut_last_lacks _ _ Ht), Ascii.eqb_refl. reflexivity.
  - rewrite IH. reflexivity.
Qed.

Lemma append_cons (c : ascii) (a b : string) : String c a +:+ b = String c (a +:+ b).
Proof. reflexivity. Qed.

(** The names derived from a locator [<bucket>/raw/<name>.json]. *)
Lemma raw_locator_names (bucket name : string) :
  Str.lacks "/" bucket = true ->
  Str.lacks "/" name = true ->
  let key := bucket +:+ "/raw/" +:+ name +:+ ".json" in
  locator_bucket key = bucket /\
  locator_basename key = name +:+ ".json" /\
  csv_file_name key = name +:+ ".csv".
Proof.
  intros Hb Hn key.
  assert (Hsplit : Str.split "/" key = [bucket; "raw"; name +:+ ".json"]).
  { unfold key. change ("/raw/" +:+ name +:+ ".json")
      with (String "/" ("raw" +:+ String "/" (name +:+ ".json"))).
    rewrite split_app by assumption.
    rewrite split_app by reflexivity.
    rewrite split_lacks; [reflexivity|].
    clear -Hn. induction name as [|c n IH]; simpl in *; [reflexivity|].
    apply andb_prop in Hn as [Hc Hn]. rewrite Hc, (IH Hn). reflexivity. }
  unfold csv_file_name, locator_bucket, locator_basename. rewrite Hsplit.
  repeat split; try reflexivity.
  cbn [List.last]. unfold Str.rsplit1.
  change (name +:+ ".json") with (name +:+ String "." "json").
  rewrite cut_last_app by reflexivity. reflexivity.
Qed.

(** ** Fault plans and the helper *)

Lemma all_sites_complete (s : site) : In s all_sites.
Proof. destruct s as [[]|[]| | | | | | | | | | | | | | | | | | | ]; simpl; tauto. Qed.

Lemma upload_object_to_bucket_spec (E : env) (bucket path : string) (key : option string) (w : world) :
  ordinary E (StorageClient Store) = true ->
  ordinary E (GetBucket Store) = true ->
  ordinary E UploadFromFilename = true ->
  let file_name := match key with None => path | Some k => k end in
  exists w',
    upload_object_to_bucket E bucket path key w = (Ok (upload_unhindered E w bucket path), w') /\
    objects w' = (if upload_unhindered E w bucket path
                  then match local_files w !! path with
                       | Some c => <[(bucket, file_name) := c]> (objects w)
                       | None => objects w
                       end
                  else objects w) /\
    local_files w' = local_files w /\ local_dirs w' = local_dirs w /\
    buckets w' = buckets w /\
    (exists l, calls w' = calls w ++ l /\
               (length (List.filter is_upload l) <= 1)%nat /\
               List.filter is_http l = [] /\
               (upload_unhindered E w bucket path = true ->
                In (GcsUpload bucket file_name path) l)) /\
    (exists m, stdout w' = stdout w ++ m /\
               if upload_unhindered E w bucket path then m = []
               else exists e, m = [MsgException e]).
Proof.
  intros H1 H2 H3 file_name.
  unfold upload_object_to_bucket, upload_try, upload_unhindered, quiet, ordinary in *.
  fold file_name. expose.
  destruct (faults E (StorageClient Store)) as [e1|] eqn:F1; simpl.
  { rewrite H1. simpl. eexists. split; [reflexivity|]. simpl.
    repeat split; try reflexivity.
    - exists []. rewrite app_nil_r. repeat split; [simpl; lia|discriminate].
    - exists [MsgException e1]. split; eauto. }
  destruct (faults E (GetBucket Store)) as [e2|] eqn:F2; simpl.
  { rewrite H2. simpl. eexists. split; [reflexivity|]. simpl.
    repeat split; try reflexivity.
    - exists [GcsGetBucket bucket]. repeat split; [simpl; lia|discriminate].
    - exists [MsgException e2]. split; eauto. }
  destruct (decide (bucket ∈ buckets w)) as [Hb|Hb]; simpl.
  2:{ rewrite (bool_decide_eq_false_2 _ Hb), andb_false_r. simpl.
      eexists. split; [reflexivity|]. simpl.
      repeat split; try reflexivity.
      - exists [GcsGetBucket bucket]. repeat split; [simpl; lia|discriminate].
      - exists [MsgException NotFound]. split; eauto. }
  rewrite (bool_decide_eq_true_2 _ Hb), andb_true_r.
  destruct (local_files w !! path) as [c|] eqn:Hf; simpl.
  2:{ rewrite andb_false_r. 
      eexists. split; [reflexivity|]. simpl.
      repeat split; try reflexivity.
      - exists [GcsGetBucket bucket; GcsUpload bucket file_name path].
        rewrite <- app_assoc. repeat split; [simpl; lia|discriminate].
      - exists [MsgException FileNotFoundError]. split; eauto. }
  rewrite andb_true_r.
  destruct (faults E UploadFromFilename) as [e3|] eqn:F3; simpl.
  { rewrite H3. simpl. eexists. split; [reflexivity|]. simpl.
    repeat split; try reflexivity.
    - exists [GcsGetBucket bucket; GcsUpload bucket file_name path].
      rewrite <- app_assoc. repeat split; [simpl; lia|discriminate].
    - exists [MsgException e3]. split; eauto. }
  eexists. split; [reflexivity|]. simpl.
  repeat split; try reflexivity.
  - exists [GcsGetBucket bucket; GcsUpload bucket file_name path].
    rewrite <- app_assoc. repeat split; [simpl; lia|]. intros _. simpl. auto.
  - exists []. rewrite app_nil_r. split; eauto.
Qed.





Lemma extract_returns (E : env) (bucket : string) (w : world) (resp : http_response) (data : json) :
  api E (extract_request E w) = Ok resp ->
  body_json resp = Ok data ->
  quiet E Makedirs = true -> quiet E OpenWrite = true ->
  ordinary E (StorageClient Store) = true ->
  ordinary E (GetBucket Store) = true ->
  ordinary E UploadFromFilename = true ->
  exists w',
    extract_spotify_data E bucket w = (Ok (raw_locator E w bucket), w') /\
    objects w' = (if upload_possible E w bucket
                  then <[(bucket, raw_object_key E w) := JsonText data]> (objects w)
                  else objects w) /\
    (exists l, calls w' = calls w ++ HttpGet (extract_request E w) :: l /\
               (length (List.filter is_upload l) <= 1)%nat /\
               List.filter is_http l = []) /\
    (exists m, stdout w' = stdout w ++ m /\
               if upload_possible E w bucket then m = []
               else exists e, m = [MsgException e]).
Proof.
  intros Hapi Hbody Hmk Hwr H1 H2 H3.
  unfold extract_spotify_data. expose. simpl.
  fold (extract_request E w). rewrite Hapi, Hbody.
  unfold quiet in Hmk, Hwr.
  destruct (faults E Makedirs); [discriminate|].
  destruct (faults E OpenWrite); [discriminate|].
  destruct (bool_decide (raw_dir ∈ local_dirs w)); simpl;
    match goal with
    | |- context [upload_object_to_bucket E ?b ?p ?k ?w1] =>
        destruct (upload_object_to_bucket_spec E b p k w1 H1 H2 H3)
          as (w' & Hu & Hobj & _ & _ & _ & (l & Hl & Hup & Hhttp & _) & (m & Hm & Hmsg));
        rewrite Hu;
        assert (Hposs : upload_unhindered E w1 b p = upload_possible E w bucket)
          by (unfold upload_unhindered, upload_possible; simpl;
              rewrite lookup_insert_eq;
              rewrite (bool_decide_eq_true_2 (is_Some (Some (JsonText data))))
                by (eexists; reflexivity);
              apply andb_true_r);
        rewrite Hposs in *; simpl in *; rewrite lookup_insert_eq in Hobj
    end;
    (exists w'; split; [reflexivity|]; split; [exact Hobj|]; split;
     [exists l; rewrite Hl, <- app_assoc; auto | exists m; auto]).
Qed.

(** ** The transform stage *)




Lemma transform_try_downloads (E : env) (key : string) (w : world) (c : file_content) :
  quiet E (StorageClient Fetch) = true ->
  quiet E (GetBucket Fetch) = true ->
  quiet E DownloadToFilename = true ->
  locator_bucket key ∈ buckets w ->
  objects w !! (locator_bucket key, locator_object_key key) = Some c ->
  transform_try E key w =
    (Ok (Str.split "/" key, locator_bucket key, raw_dir +:+ locator_basename key),
     {| local_files := <[raw_dir +:+ locator_basename key := c]> (local_files w);
        local_dirs := local_dirs w;
        buckets := buckets w;
        objects := objects w;
        datasets := datasets w;
        tables := tables w;
        ticks := ticks w;
        stdout := stdout w ++ [MsgLocalPath (raw_dir +:+ locator_basename key)];
        calls := (calls w ++ [GcsGetBucket (locator_bucket key)]) ++
                 [GcsDownload (locator_bucket key) (locator_object_key key)
                              (raw_dir +:+ locator_basename key)] |}).
Proof.
  unfold quiet. intros Q1 Q2 Q3 Hb Hc.
  unfold transform_try. expose.
  destruct (faults E (StorageClient Fetch)); [discriminate|].
  destruct (faults E (GetBucket Fetch)); [discriminate|].
  destruct (faults E DownloadToFilename); [discriminate|].
  rewrite locator_bucket_first, locator_basename_last. simpl.
  destruct (decide (locator_bucket key ∈ buckets w)); [|contradiction]. simpl.
  fold (locator_object_key key). rewrite Hc. reflexivity.
Qed.

Lemma only_upload_faults_site (E : env) (s : site) :
  only_upload_faults E = true ->
  if upload_site s then ordinary E s = true else quiet E s = true.
Proof.
  unfold only_upload_faults. rewrite forallb_forall. intros H.
  specialize (H s (all_sites_complete s)).
  destruct (upload_site s); apply Is_true_true; rewrite H; exact I.
Qed.


Lemma transform_returns (E : env) (key : string) (w : world) (data : json) (df : DataFrame) :
  only_upload_faults E = true ->
  locator_bucket key ∈ buckets w ->
  objects w !! (locator_bucket key, locator_object_key key) = Some (JsonText data) ->
  build_song_df data = Ok df ->
  exists w',
    transform E key w = (Ok (transformed_locator key), w') /\
    objects w' = (if upload_possible E w (locator_bucket key)
                  then <[(locator_bucket key, transformed_object_key key) :=
                           PlainText (to_csv (cell_text E) df)]> (objects w)
                  else objects w) /\
    (exists l,
       calls w' = calls w ++
                  GcsGetBucket (locator_bucket key)
                  :: GcsDownload (locator_bucket key) (locator_object_key key)
                                 (raw_dir +:+ locator_basename key) :: l /\
       (length (List.filter is_upload l) <= 1)%nat /\
       (upload_possible E w (locator_bucket key) = true ->
        In (GcsUpload (locator_bucket key) (transformed_object_key key)
                      (transformed_dir +:+ csv_file_name key)) l)) /\
    (exists m,
       stdout w' = stdout w ++ MsgLocalPath (raw_dir +:+ locator_basename key) :: m /\
       if upload_possible E w (locator_bucket key) then m = []
       else exists e, m = [MsgException e]).
Proof.
  intros Hplan Hb Hobj Hdf.
  pose proof (only_upload_faults_site E (StorageClient Fetch) Hplan) as Q1.
  pose proof (only_upload_faults_site E (GetBucket Fetch) Hplan) as Q2.
  pose proof (only_upload_faults_site E DownloadToFilename Hplan) as Q3.
  pose proof (only_upload_faults_site E OpenRead Hplan) as Q4.
  pose proof (only_upload_faults_site E Makedirs Hplan) as Q5.
  pose proof (only_upload_faults_site E ToCsv Hplan) as Q6.
  pose proof (only_upload_faults_site E Rmtree Hplan) as Q7.
  pose proof (only_upload_faults_site E (StorageClient Store) Hplan) as H1.
  pose proof (only_upload_faults_site E (GetBucket Store) Hplan) as H2.
  pose proof (only_upload_faults_site E UploadFromFilename Hplan) as H3.
  simpl in Q1, Q2, Q3, Q4, Q5, Q6, Q7, H1, H2, H3.
  unfold transform, transform_download, transform_parse. expose.
  rewrite (transform_try_downloads E key w _ Q1 Q2 Q3 Hb Hobj).
  unfold quiet in Q4, Q5, Q6, Q7.
  destruct (faults E OpenRead); [discriminate|].
  destruct (faults E Makedirs); [discriminate|].
  destruct (faults E ToCsv); [discriminate|].
  destruct (faults E Rmtree); [discriminate|].
  simpl. rewrite lookup_insert_eq. rewrite Hdf. simpl.
  rewrite locator_basename_last. simpl. rewrite rsplit1_first. simpl.
  fold (csv_file_name key).
  destruct (bool_decide (transformed_dir ∈ local_dirs w)); simpl;
    match goal with
    | |- context [upload_object_to_bucket E ?b ?p ?k ?w1] =>
        destruct (upload_object_to_bucket_spec E b p k w1 H1 H2 H3)
          as (w' & Hu & Ho & _ & _ & _ & (l & Hl & Hup & _ & Hin) & (m & Hm & Hmsg));
        rewrite Hu;
        assert (Hposs : upload_unhindered E w1 b p = upload_possible E w (locator_bucket key))
          by (unfold upload_unhindered, upload_possible; simpl;
              rewrite lookup_insert_eq;
              rewrite (bool_decide_eq_true_2 (is_Some (Some (PlainText (to_csv (cell_text E) df)))))
                by (eexists; reflexivity);
              apply andb_true_r);
        rewrite Hposs in *; simpl in *; rewrite lookup_insert_eq in Ho
    end;
    (eexists; split; [reflexivity|]; simpl; split; [exact Ho|]; split;
     [exists l; rewrite Hl, <- !app_assoc; auto | exists m; rewrite Hm, <- !app_assoc; auto]).
Qed.

(** ** The load stage *)

Lemma no_faults_site (E : env) (s : site) : no_faults E = true -> faults E s = None.
Proof.
  unfold no_faults. rewrite forallb_forall. intros H.
  specialize (H s (all_sites_complete s)). unfold quiet in H.
  destruct (faults E s); [discriminate|reflexivity].
Qed.


(** ** Deduplication *)

Lemma remove_dups_NoDup {A} `{EqDecision A} (l : list A) : NoDup l -> remove_dups l = l.
Proof.
  induction 1 as [|x l Hx _ IH]; simpl; [reflexivity|].
  destruct (decide_rel elem_of x l); [contradiction|]. rewrite IH. reflexivity.
Qed.

Lemma select_distinct_idempotent (rows : list row) :
  select_distinct (select_distinct rows) = select_distinct rows.
Proof. apply remove_dups_NoDup, NoDup_remove_dups. Qed.

Lemma remove_duplicates_runs (E : env) (tid : string) (w : world) (t : list row) :
  quiet E QueryRemoveDuplicates = true ->
  quiet E RemoveDuplicatesResult = true ->
  tables w !! tid = Some t ->
  remove_duplicates E tid w =
    (Ok tt,
     {| local_files := local_files w; local_dirs := local_dirs w;
        buckets := buckets w; objects := objects w;
        datasets := datasets w;
        tables := <[tid := select_distinct t]> (tables w);
        ticks := ticks w; stdout := stdout w;
        calls := calls w ++ [BqQuery (CreateOrReplaceDistinct tid tid)] |}).
Proof.
  unfold quiet. intros Q1 Q2 Ht. unfold remove_duplicates. expose.
  destruct (faults E QueryRemoveDuplicates); [discriminate|].
  destruct (faults E RemoveDuplicatesResult); [discriminate|].
  simpl. rewrite Ht. reflexivity.
Qed.

Lemma load_succeeds (E : env) (key : string) (w : world) (t rows : list row) :
  no_faults E = true ->
  (project E +:+ "." +:+ dataset_id) ∈ datasets w ->
  tables w !! table_id E = Some t ->
  ingest E ("gs://" +:+ key) = Ok rows ->
  exists w',
    load E key w = (Ok true, w') /\
    tables w' !! table_id E = Some (select_distinct (t ++ rows)) /\
    stdout w' = stdout w ++
      [MsgDatasetExists dataset_id; MsgObjectKey key;
       MsgNewRecords (Z.of_nat (length (select_distinct (t ++ rows))) - Z.of_nat (length t))
                     (table_id E)].
Proof.
  intros Hnf Hds Ht Hrows.
  unfold load, load_ensure_dataset, load_into_table, load_try, remove_duplicates. expose.
  rewrite !(no_faults_site E _ Hnf).
  destruct (decide (project E +:+ "." +:+ dataset_id ∈ datasets w)); [|contradiction].
  simpl. repeat (first [rewrite Ht | rewrite Hrows | rewrite lookup_insert_eq]; simpl).
  eexists. split; [reflexivity|]. simpl.
  rewrite lookup_insert_eq. split; [reflexivity|].
  rewrite <- !app_assoc. reflexivity.
Qed.

Lemma distinct_once (r : row) (t : list row) :
  r ∈ t -> count_occ row_eq_dec (select_distinct t) r = 1%nat.
Proof.
  intros Hr. apply NoDup_count_occ'.
  - apply NoDup_ListNoDup, NoDup_remove_dups.
  - apply list_elem_of_In, elem_of_remove_dups, Hr.
Qed.
















Lemma distinct_same_length (r : row) (t : list row) :
  r ∈ t -> length (select_distinct (t ++ [r])) = length (select_distinct t).
Proof.
  intros Hr. apply Permutation_length, NoDup_Permutation; try apply NoDup_remove_dups.
  intros x. unfold select_distinct.
  rewrite !elem_of_remove_dups, elem_of_app, list_elem_of_singleton.
  split; [intros [?| ->]; assumption | auto].
Qed.

Lemma reported_last (w : world) (l : list message) (delta : Z) (tid : string) :
  stdout w = l ++ [MsgNewRecords delta tid] -> reported_new_records w = Some delta.
Proof. unfold reported_new_records. intros ->. rewrite last_last. reflexivity. Qed.


(** ** From the extract stage to the transform stage *)

Lemma lacks_app (c : ascii) (a b : string) :
  Str.lacks c (a +:+ b) = Str.lacks c a && Str.lacks c b.
Proof.
  induction a as [|x a IH]; [reflexivity|].
  rewrite append_cons. simpl. rewrite IH, andb_assoc. reflexivity.
Qed.

(** A string without [c] does not start with a string that has [c]. *)
Lemma startswith_lacks (c : ascii) (old s : string) :
  Str.lacks c s = true -> Str.lacks c old = false -> Str.startswith old s = false.
Proof.
  revert s. induction old as [|a old IH]; intros s Hs Hold; [discriminate|].
  destruct s as [|b s]; [reflexivity|]. simpl in *.
  apply andb_prop in Hs as [Hb Hs].
  destruct (Ascii.eqb a b) eqn:Hab; [|reflexivity]. simpl.
  apply Ascii.eqb_eq in Hab as ->. rewrite Hb in Hold. simpl in Hold.
  apply IH; assumption.
Qed.

Lemma replace_lacks (c : ascii) (old new s : string) :
  Str.lacks c s = true -> Str.lacks c old = false ->
  Str.replace_from old new 0 s = s.
Proof.
  intros Hs Hold. induction s as [|a s IH]; [reflexivity|].
  cbn [Str.replace_from]. rewrite (startswith_lacks c old (String a s) Hs Hold).
  simpl in Hs. apply andb_prop in Hs as [_ Hs]. rewrite (IH Hs). reflexivity.
Qed.

Lemma replace_from_match (old new : string) (c : ascii) (s : string) :
  Str.startswith old (String c s) = true ->
  Str.replace_from old new 0 (String c s) =
  new +:+ Str.replace_from old new (Nat.pred (String.length old)) s.
Proof. intros H. cbn [Str.replace_from]. rewrite H. reflexivity. Qed.

Lemma replace_from_other (old new : string) (c : ascii) (s : string) :
  Str.startswith old (String c s) = false ->
  Str.replace_from old new 0 (String c s) = String c (Str.replace_from old new 0 s).
Proof. intros H. cbn [Str.replace_from]. rewrite H. reflexivity. Qed.

Lemma replace_from_skip (old new : string) (k : nat) (c : ascii) (s : string) :
  Str.replace_from old new (S k) (String c s) = Str.replace_from old new k s.
Proof. reflexivity. Qed.

Lemma raw_locator_of_BUCKET (E : env) (w : world) :
  Str.lacks "/" (stamp (clock E (S (ticks w)))) = true ->
  locator_bucket (raw_locator E w BUCKET) = BUCKET /\
  locator_object_key (raw_locator E w BUCKET) = raw_object_key E w.
Proof.
  intros Hs. unfold raw_locator, raw_object_key.
  set (rest := stamp (clock E (S (ticks w))) +:+ "_spotify_data.json").
  assert (Hrest : Str.lacks "/" rest = true).
  { unfold rest. rewrite lacks_app, Hs. reflexivity. }
  assert (Hb : locator_bucket (BUCKET +:+ "/" +:+ "raw/" +:+ rest) = BUCKET).
  { unfold locator_bucket.
    change (BUCKET +:+ "/" +:+ "raw/" +:+ rest) with (BUCKET +:+ String "/" ("raw/" +:+ rest)).
    rewrite split_app by reflexivity. reflexivity. }
  split; [exact Hb|].
  unfold locator_object_key. rewrite Hb.
  unfold Str.replace.
  change (BUCKET +:+ "/") with "poc_etl/".
  change (BUCKET +:+ "/" +:+ "raw/" +:+ rest)
    with (String "p" (String "o" (String "c" (String "_" (String "e" (String "t"
          (String "l" (String "/" (String "r" (String "a" (String "w" (String "/" rest)))))))))))).
  change ("raw/" +:+ rest) with (String "r" (String "a" (String "w" (String "/" rest)))).
  rewrite replace_from_match by reflexivity.
  change (Nat.pred (String.length "poc_etl/")) with 7%nat.
  rewrite !replace_from_skip.
  rewrite !replace_from_other by reflexivity.
  rewrite (replace_lacks "/" _ _ rest Hrest) by reflexivity.
  reflexivity.
Qed.



(** ** Exceptions of the projection *)











Lemma no_faults_only_upload (E : env) : no_faults E = true -> only_upload_faults E = true.
Proof.
  intros H. unfold only_upload_faults. apply forallb_forall. intros s _.
  unfold ordinary, quiet. rewrite (no_faults_site E s H). destruct (upload_site s); reflexivity.
Qed.

Lemma no_faults_upload_possible (E : env) (w : world) (bucket : string) :
  no_faults E = true -> bucket ∈ buckets w -> upload_possible E w bucket = true.
Proof.
  intros H Hb. unfold upload_possible, quiet. rewrite !(no_faults_site E _ H).
  rewrite (bool_decide_eq_true_2 _ Hb). reflexivity.
Qed.

(** ** Failures of the load stage that are not reported *)



(** * The claims *)



(** C2. The deduplication rewrite is idempotent: run twice in succession
    on any table, the second run leaves the tables, and so the row
    count, as the first run left them; on a table without duplicate rows
    the rewrite changes nothing. *)
Theorem deduplication_idempotent (E : env) (tid : string) (w : world) (t : list row) :
  quiet E QueryRemoveDuplicates = true ->
  quiet E RemoveDuplicatesResult = true ->
  tables w !! tid = Some t ->
  exists w1 w2,
    remove_duplicates E tid w = (Ok tt, w1) /\
    remove_duplicates E tid w1 = (Ok tt, w2) /\
    tables w1 !! tid = Some (select_distinct t) /\
    tables w2 = tables w1 /\
    length (select_distinct (select_distinct t)) = length (select_distinct t) /\
    (NoDup t -> tables w1 = tables w).
Proof.
  intros Q1 Q2 Ht.
  rewrite (remove_duplicates_runs E tid w t Q1 Q2 Ht).
  eexists. eexists. split; [reflexivity|].
  rewrite (remove_duplicates_runs E tid _ (select_distinct t) Q1 Q2)
    by (simpl; apply lookup_insert_eq).
  split; [reflexivity|]. simpl.
  rewrite select_distinct_idempotent, insert_insert_eq, lookup_insert_eq.
  repeat split.
  intros Hnd. unfold select_distinct. rewrite (remove_dups_NoDup t Hnd).
  apply insert_id, Ht.
Qed.

Lemma deduplication_idempotent_witness :
  exists w1 w2,
    remove_duplicates (sample_env 200 (Ok sample_document) (Ok []) []) "demo.Spotify_Data.recently_played"
      (sample_world [] None (Some [sample_row; sample_row])) = (Ok tt, w1) /\
    remove_duplicates (sample_env 200 (Ok sample_document) (Ok []) []) "demo.Spotify_Data.recently_played" w1 = (Ok tt, w2) /\
    tables w1 !! "demo.Spotify_Data.recently_played" = Some [sample_row] /\
    tables w2 = tables w1.
Proof.
  destruct (deduplication_idempotent (sample_env 200 (Ok sample_document) (Ok []) [])
              "demo.Spotify_Data.recently_played"
              (sample_world [] None (Some [sample_row; sample_row]))
              [sample_row; sample_row])
    as (w1 & w2 & H1 & H2 & H3 & H4 & _); [reflexivity | reflexivity | reflexivity |].
  exists w1, w2. repeat split; assumption.
Defined.

(** C3, as stated, at a table that holds the row twice: after the load
    and the rewrite one copy is left, and the count reported is -1. *)
Lemma reload_into_a_table_with_duplicates :
  sample_row ∈ [sample_row; sample_row] /\
  fst (load (sample_env 200 (Ok sample_document) (Ok [sample_row]) [])
            "poc_etl/transformed/x.csv"
            (sample_world [] None (Some [sample_row; sample_row]))) = Ok true /\
  reported_new_records
    (snd (load (sample_env 200 (Ok sample_document) (Ok [sample_row]) [])
               "poc_etl/transformed/x.csv"
               (sample_world [] None (Some [sample_row; sample_row])))) = Some (-1) /\
  reported_new_records
    (snd (load (sample_env 200 (Ok sample_document) (Ok [sample_row]) [])
               "poc_etl/transformed/x.csv"
               (sample_world [] None (Some [sample_row; sample_row])))) <> Some 0.
Proof.
  split; [apply list_elem_of_here|].
  split; [vm_compute; reflexivity|].
  split; [vm_compute; reflexivity|].
  vm_compute. discriminate.
Qed.

(** C3, amended.  For every table that contains a row, loading a file
    with that one row and running the rewrite leaves exactly one copy of
    it; the count reported is the number of distinct rows of the table
    minus its number of rows, which is 0 when the table held no
    duplicate rows before the load. *)
Theorem reload_of_a_stored_row (E : env) (key : string) (w : world) (t : list row) (r : row) :
  no_faults E = true ->
  (project E +:+ "." +:+ dataset_id) ∈ datasets w ->
  tables w !! table_id E = Some t ->
  r ∈ t ->
  ingest E ("gs://" +:+ key) = Ok [r] ->
  exists w' t',
    load E key w = (Ok true, w') /\
    tables w' !! table_id E = Some t' /\
    count_occ row_eq_dec t' r = 1%nat /\
    reported_new_records w' =
      Some (Z.of_nat (length (select_distinct t)) - Z.of_nat (length t)) /\
    (NoDup t -> reported_new_records w' = Some 0).
Proof.
  intros Hnf Hds Ht Hr Hrows.
  destruct (load_succeeds E key w t [r] Hnf Hds Ht Hrows) as (w' & Hload & Htab & Hout).
  exists w', (select_distinct (t ++ [r])).
  split; [exact Hload|]. split; [exact Htab|].
  split; [apply distinct_once, elem_of_app; auto|].
  rewrite (distinct_same_length r t Hr) in Hout.
  assert (Hrep : reported_new_records w' =
                 Some (Z.of_nat (length (select_distinct t)) - Z.of_nat (length t))).
  { eapply reported_last. rewrite Hout.
    change (stdout w ++ [?a; ?b; ?c]) with (stdout w ++ [a; b] ++ [c]).
    rewrite app_assoc. reflexivity. }
  split; [exact Hrep|].
  intros Hnd. rewrite Hrep. unfold select_distinct.
  rewrite (remove_dups_NoDup t Hnd). f_equal. lia.
Qed.

Lemma reload_of_a_stored_row_witness :
  exists w' t',
    load (sample_env 200 (Ok sample_document) (Ok [sample_row]) []) "poc_etl/transformed/x.csv"
         (sample_world [] None (Some [sample_row])) = (Ok true, w') /\
    tables w' !! "demo.Spotify_Data.recently_played" = Some t' /\
    count_occ row_eq_dec t' sample_row = 1%nat /\
    reported_new_records w' = Some 0.
Proof.
  destruct (reload_of_a_stored_row
              (sample_env 200 (Ok sample_document) (Ok [sample_row]) [])
              "poc_etl/transformed/x.csv"
              (sample_world [] None (Some [sample_row])) [sample_row] sample_row)
    as (w' & t' & H1 & H2 & H3 & _ & H5).
  - reflexivity.
  - vm_compute. reflexivity.
  - reflexivity.
  - apply list_elem_of_here.
  - reflexivity.
  - exists w', t'. repeat split; try assumption.
    apply H5. apply NoDup_singleton.
Defined.













(** C9. [extract_spotify_data] returns the locator
    [<bucket>/raw/<stamp>_spotify_data.json] whether the upload worked or
    not; when it did not, the remote objects are as they were. *)
Theorem extract_returns_locator_regardless (E : env) (bucket : string) (w : world)
    (resp : http_response) (data : json) :
  api E (extract_request E w) = Ok resp ->
  body_json resp = Ok data ->
  quiet E Makedirs = true ->
  quiet E OpenWrite = true ->
  ordinary E (StorageClient Store) = true ->
  ordinary E (GetBucket Store) = true ->
  ordinary E UploadFromFilename = true ->
  exists w',
    extract_spotify_data E bucket w =
      (Ok (bucket +:+ "/raw/" +:+ stamp (clock E (S (ticks w))) +:+ "_spotify_data.json"), w') /\
    (upload_possible E w bucket = true ->
     objects w' !! (bucket, raw_object_key E w) = Some (JsonText data)) /\
    (upload_possible E w bucket = false ->
     objects w' = objects w /\ exists e, List.last (stdout w') (MsgLocalPath EmptyString) = MsgException e).
Proof.
  intros Hapi Hbody Hmk Hwr H1 H2 H3.
  destruct (extract_returns E bucket w resp data Hapi Hbody Hmk Hwr H1 H2 H3)
    as (w' & Hrun & Hobj & _ & (m & Hm & Hmsg)).
  exists w'. split; [exact Hrun|].
  destruct (upload_possible E w bucket).
  - split; [|discriminate]. intros _. rewrite Hobj. apply lookup_insert_eq.
  - split; [discriminate|]. intros _. split; [exact Hobj|].
    destruct Hmsg as [e ->]. exists e. rewrite Hm. apply last_last.
Qed.

Lemma extract_returns_locator_regardless_witness :
  exists w',
    extract_spotify_data
      (sample_env 200 (Ok sample_document) (Ok []) [(GetBucket Store, Forbidden)])
      "bucket" (sample_world ["bucket"] None None)
    = (Ok "bucket/raw/2024-01-02_00-00-00_spotify_data.json", w') /\
    objects w' = ∅.
Proof.
  destruct (extract_returns_locator_regardless
              (sample_env 200 (Ok sample_document) (Ok []) [(GetBucket Store, Forbidden)])
              "bucket" (sample_world ["bucket"] None None)
              {| status_code := 200; body_json := Ok sample_document |} sample_document)
    as (w' & Hrun & _ & Hfail); try reflexivity.
  exists w'. split; [exact Hrun|]. apply Hfail. reflexivity.
Defined.



(** * Further properties *)

(** ** What the projection raises *)

Lemma getitem_projection_error (v : json) (k : string) (e : exn) :
  getitem v k = Raise e -> is_projection_error e = true.
Proof.
  destruct v; simpl; try (intros [= <-]; reflexivity).
  destruct (dict_get fields k); [discriminate|]. intros [= <-]. reflexivity.
Qed.

Lemma getitem0_projection_error (v : json) (e : exn) :
  getitem0 v = Raise e -> is_projection_error e = true.
Proof.
  destruct v; simpl; try (intros [= <-]; reflexivity).
  - destruct (Str.chars s); simpl; [intros [= <-]; reflexivity|discriminate].
  - destruct items; simpl; [intros [= <-]; reflexivity|discriminate].
Qed.

Lemma loop_body_outcome (acc : song_lists) (song : json) :
  match loop_body acc song with
  | Ok acc' =>
      exists n a ar d p t,
        entry_fields song = Ok [n; a; ar; d; p; t] /\
        acc' = {| song_names := song_names acc ++ [n];
                  album_names := album_names acc ++ [a];
                  artist_names := artist_names acc ++ [ar];
                  songs_duration_ms := songs_duration_ms acc ++ [d];
                  songs_popularity := songs_popularity acc ++ [p];
                  played_at_list := played_at_list acc ++ [t] |}
  | Raise e => is_projection_error e = true /\ is_Ok (entry_fields song) = false
  end.
Proof.
  unfold loop_body, entry_fields, track_name, track_album_name, first_artist_name,
    album_artists, track_duration_ms, track_popularity, entry_played_at.
  cbv zeta.
  destruct (getitem song "track") as [track|e] eqn:Ht; simpl;
    [|split; [eapply getitem_projection_error, Ht|reflexivity]].
  destruct (getitem track "name") as [n|e] eqn:Hn; simpl;
    [|split; [eapply getitem_projection_error, Hn|reflexivity]].
  destruct (getitem track "album") as [album|e] eqn:Ha; simpl;
    [|split; [eapply getitem_projection_error, Ha|reflexivity]].
  destruct (getitem album "name") as [a|e] eqn:Han; simpl;
    [|split; [eapply getitem_projection_error, Han|reflexivity]].
  destruct (getitem album "artists") as [artists|e] eqn:Har; simpl;
    [|split; [eapply getitem_projection_error, Har|reflexivity]].
  destruct (getitem0 artists) as [artist|e] eqn:H0; simpl;
    [|split; [eapply getitem0_projection_error, H0|reflexivity]].
  destruct (getitem artist "name") as [ar|e] eqn:Harn; simpl;
    [|split; [eapply getitem_projection_error, Harn|reflexivity]].
  destruct (getitem track "duration_ms") as [d|e] eqn:Hd; simpl;
    [|split; [eapply getitem_projection_error, Hd|reflexivity]].
  destruct (getitem track "popularity") as [p|e] eqn:Hp; simpl;
    [|split; [eapply getitem_projection_error, Hp|reflexivity]].
  destruct (getitem song "played_at") as [t|e] eqn:Hpl; simpl;
    [|split; [eapply getitem_projection_error, Hpl|reflexivity]].
  exists n, a, ar, d, p, t. split; reflexivity.
Qed.

Lemma loop_body_same_lengths (acc acc' : song_lists) (song : json) :
  same_lengths acc -> loop_body acc song = Ok acc' -> same_lengths acc'.
Proof.
  intros (H1 & H2 & H3 & H4 & H5) Hb.
  pose proof (loop_body_outcome acc song) as Ho. rewrite Hb in Ho.
  destruct Ho as (n & a & ar & d & p & t & _ & ->).
  unfold same_lengths. simpl. rewrite !length_app. simpl. lia.
Qed.

Lemma for_each_same_lengths (songs : list json) (acc acc' : song_lists) :
  same_lengths acc -> for_each songs acc = Ok acc' -> same_lengths acc'.
Proof.
  revert acc. induction songs as [|song songs IH]; intros acc Hacc; simpl.
  - intros [= <-]. exact Hacc.
  - destruct (loop_body acc song) as [acc1|e] eqn:Hb; simpl; [|discriminate].
    apply IH. eapply loop_body_same_lengths; eassumption.
Qed.

Lemma for_each_projection_error (songs : list json) (acc : song_lists) (e : exn) :
  for_each songs acc = Raise e -> is_projection_error e = true.
Proof.
  revert acc. induction songs as [|song songs IH]; intros acc; simpl; [discriminate|].
  pose proof (loop_body_outcome acc song) as Ho.
  destruct (loop_body acc song) as [acc1|e1]; simpl; [apply IH|].
  intros [= <-]. apply Ho.
Qed.

Lemma pd_DataFrame_same_lengths (acc : song_lists) :
  same_lengths acc -> is_Ok (pd_DataFrame (song_dict acc) column_labels) = true.
Proof.
  intros (H1 & H2 & H3 & H4 & H5). unfold pd_DataFrame, song_dict. simpl.
  rewrite H1, H2, H3, H4, H5, Nat.eqb_refl. reflexivity.
Qed.

(** X1.  Whatever document it is given, the projection of [transform]
    raises nothing but a KeyError, a TypeError or an IndexError: the loop
    keeps the six lists at one length, so building the frame from them
    never fails. *)
Theorem projection_errors (data : json) (e : exn) :
  build_song_df data = Raise e -> is_projection_error e = true.
Proof.
  unfold build_song_df.
  destruct (getitem data "items") as [items|e0] eqn:Hi; simpl;
    [|intros [= <-]; eapply getitem_projection_error, Hi].
  destruct (iterate items) as [songs|e1] eqn:Hit; simpl.
  2:{ intros [= <-]. destruct items; simpl in Hit; try discriminate;
      injection Hit as <-; reflexivity. }
  destruct (for_each songs empty_lists) as [acc|e2] eqn:Hf; simpl;
    [|intros [= <-]; eapply for_each_projection_error, Hf].
  assert (Hs : same_lengths acc).
  { eapply for_each_same_lengths; [|exact Hf]. repeat split. }
  pose proof (pd_DataFrame_same_lengths acc Hs) as Hok.
  destruct (pd_DataFrame (song_dict acc) column_labels); [discriminate|discriminate].
Qed.

Lemma projection_errors_witness :
  is_projection_error IndexError = true.
Proof. apply (projection_errors artistless_document). reflexivity. Defined.

(** ** Which documents give a frame *)

Lemma loop_body_error_any_acc (acc acc' : song_lists) (song : json) (e : exn) :
  loop_body acc song = Raise e -> loop_body acc' song = Raise e.
Proof.
  unfold loop_body. cbv zeta.
  repeat match goal with
         | |- rbind ?r _ = Raise _ -> rbind ?r _ = Raise _ =>
             destruct r; simpl; [|exact (fun H => H)]
         end.
  discriminate.
Qed.

Lemma loop_body_ok_iff (acc : song_lists) (song : json) :
  is_Ok (loop_body acc song) = is_Ok (entry_fields song).
Proof.
  destruct (entry_fields song) as [r|e] eqn:He.
  - destruct (loop_body_fields song r He) as (n & a & ar & d & p & t & _ & Hb).
    rewrite Hb. reflexivity.
  - unfold entry_fields, track_name, track_album_name, first_artist_name,
      album_artists, track_duration_ms, track_popularity, entry_played_at in He.
    unfold loop_body. cbv zeta.
    destruct (getitem song "track") as [track|]; simpl in *; [|reflexivity].
    destruct (getitem track "name"); simpl in *; [|reflexivity].
    destruct (getitem track "album") as [album|]; simpl in *; [|reflexivity].
    destruct (getitem album "name"); simpl in *; [|reflexivity].
    destruct (getitem album "artists") as [artists|]; simpl in *; [|reflexivity].
    destruct (getitem0 artists) as [artist|]; simpl in *; [|reflexivity].
    destruct (getitem artist "name"); simpl in *; [|reflexivity].
    destruct (getitem track "duration_ms"); simpl in *; [|reflexivity].
    destruct (getitem track "popularity"); simpl in *; [|reflexivity].
    destruct (getitem song "played_at"); simpl in *; [discriminate|reflexivity].
Qed.

Lemma for_each_first_error (good : list json) (bad : json) (rest : list json) (e : exn) :
  Forall (fun s => is_Ok (entry_fields s) = true) good ->
  loop_body empty_lists bad = Raise e ->
  forall acc, for_each (good ++ bad :: rest) acc = Raise e.
Proof.
  intros Hgood Hbad. induction Hgood as [|s good Hs _ IH]; intros acc; simpl.
  - rewrite (loop_body_error_any_acc empty_lists acc bad e Hbad). reflexivity.
  - pose proof (loop_body_ok_iff acc s) as Hok. rewrite Hs in Hok.
    destruct (loop_body acc s); [|discriminate]. simpl. apply IH.
Qed.

(** X2.  The projection stops at the first entry it cannot read: when
    the entries before it have the six fields, the exception of the whole
    projection is the one that entry raises, whatever comes after it. *)
Theorem first_malformed_entry_decides (data : json) (good : list json) (bad : json)
    (rest : list json) (e : exn) :
  getitem data "items" = Ok (JArr (good ++ bad :: rest)) ->
  Forall (fun s => is_Ok (entry_fields s) = true) good ->
  loop_body empty_lists bad = Raise e ->
  build_song_df data = Raise e.
Proof.
  intros Hitems Hgood Hbad. unfold build_song_df. rewrite Hitems. simpl.
  rewrite (for_each_first_error good bad rest e Hgood Hbad). reflexivity.
Qed.

Lemma first_malformed_entry_decides_witness :
  build_song_df (JObj [("items", JArr [sample_entry; artistless_entry; JNull])])
  = Raise IndexError.
Proof.
  apply (first_malformed_entry_decides _ [sample_entry] artistless_entry [JNull]).
  - reflexivity.
  - repeat constructor.
  - reflexivity.
Defined.

Lemma for_each_ok_iff (entries : list json) :
  forall acc,
    is_Ok (for_each entries acc) = forallb (fun s => is_Ok (entry_fields s)) entries.
Proof.
  induction entries as [|s entries IH]; intros acc; simpl; [reflexivity|].
  rewrite <- (loop_body_ok_iff acc s).
  destruct (loop_body acc s); simpl; [apply IH|reflexivity].
Qed.

Lemma build_song_df_ok_iff (data : json) (entries : list json) :
  getitem data "items" = Ok (JArr entries) ->
  is_Ok (build_song_df data) = forallb (fun s => is_Ok (entry_fields s)) entries.
Proof.
  intros Hitems. rewrite <- (for_each_ok_iff entries empty_lists).
  unfold build_song_df. rewrite Hitems. simpl.
  destruct (for_each entries empty_lists) as [acc|e] eqn:Hf; simpl; [|reflexivity].
  apply pd_DataFrame_same_lengths.
  eapply for_each_same_lengths; [|exact Hf]. repeat split.
Qed.

(** X3.  For a document whose items are a list, the projection gives a
    frame exactly when every entry has the six fields. *)
Theorem frame_iff_all_entries_well_formed (data : json) (entries : list json) :
  getitem data "items" = Ok (JArr entries) ->
  is_Ok (build_song_df data) = forallb (fun s => is_Ok (entry_fields s)) entries.
Proof. apply build_song_df_ok_iff. Qed.

Lemma frame_iff_all_entries_well_formed_witness :
  is_Ok (build_song_df artistless_document) = false.
Proof.
  apply (frame_iff_all_entries_well_formed artistless_document [sample_entry; artistless_entry]).
  reflexivity.
Defined.

(** X4.  Items that are no list: an empty dict and an empty string give
    the frame with no row, as an empty list does, and every other value
    makes the projection raise TypeError. *)
Theorem items_that_are_no_list (data items : json) :
  getitem data "items" = Ok items ->
  is_list items = false ->
  build_song_df data =
    if is_empty_dict_or_str items then Ok empty_frame else Raise TypeError.
Proof.
  intros Hitems Hnl. unfold build_song_df. rewrite Hitems. simpl.
  destruct items as [| | | |s|l|fields]; simpl in *; try reflexivity; try discriminate.
  - destruct s; reflexivity.
  - destruct fields as [|[k v] fields]; reflexivity.
Qed.

Lemma items_that_are_no_list_witness :
  build_song_df (JObj [("items", JObj [("a", JNull)])]) = Raise TypeError /\
  build_song_df (JObj [("items", JStr EmptyString)]) = Ok empty_frame.
Proof.
  split.
  - apply (items_that_are_no_list _ (JObj [("a", JNull)])); reflexivity.
  - apply (items_that_are_no_list _ (JStr EmptyString)); reflexivity.
Defined.

(** ** Locators with sub-directories, and bucket names inside the key *)

Lemma app_assoc_str (a b c : string) : (a +:+ b) +:+ c = a +:+ (b +:+ c).
Proof.
  induction a as [|x a IH]; [reflexivity|].
  rewrite !append_cons, IH. reflexivity.
Qed.

Lemma path_assoc (b : string) (c : ascii) (d s : string) :
  b +:+ String c (d +:+ s) = (b +:+ String c d) +:+ s.
Proof. rewrite app_assoc_str. reflexivity. Qed.

Lemma split_snoc (sep : ascii) (p n : string) :
  Str.lacks sep n = true ->
  Str.split sep (p +:+ String sep n) = Str.split sep p ++ [n].
Proof.
  intros Hn. induction p as [|c p IH].
  - change (EmptyString +:+ String sep n) with (String sep n). simpl.
    rewrite Ascii.eqb_refl, (split_lacks sep n Hn). reflexivity.
  - rewrite append_cons. simpl. rewrite IH.
    destruct (Ascii.eqb c sep); [reflexivity|].
    destruct (Str.split sep p) as [|h t] eqn:Hp; [|reflexivity].
    exfalso. exact (split_nonempty sep p Hp).
Qed.

Lemma basename_of_path (p n : string) :
  Str.lacks "/" n = true -> locator_basename (p +:+ String "/" n) = n.
Proof.
  intros Hn. unfold locator_basename. rewrite (split_snoc "/" p n Hn).
  apply last_last.
Qed.

Lemma bucket_of_path (b rest : string) :
  Str.lacks "/" b = true -> locator_bucket (b +:+ String "/" rest) = b.
Proof. intros Hb. unfold locator_bucket. rewrite (split_app "/" b rest Hb). reflexivity. Qed.

(** X5.  The locator [transform] returns keeps the bucket and the last
    segment of the one it was given and nothing in between: the
    sub-directories of the key are dropped, only the last extension of
    the name is replaced by [.csv], and a name without extension gets
    [.csv] appended. *)
Theorem transformed_locator_of_nested_key (bucket dirs stem ext : string) :
  Str.lacks "/" bucket = true ->
  Str.lacks "/" stem = true ->
  Str.lacks "/" ext = true ->
  Str.lacks "." ext = true ->
  transformed_locator (bucket +:+ "/" +:+ dirs +:+ "/" +:+ stem +:+ "." +:+ ext)
    = bucket +:+ "/transformed/" +:+ stem +:+ ".csv" /\
  (Str.lacks "." stem = true ->
   transformed_locator (bucket +:+ "/" +:+ dirs +:+ "/" +:+ stem)
     = bucket +:+ "/transformed/" +:+ stem +:+ ".csv").
Proof.
  intros Hb Hs He Hd. unfold transformed_locator, transformed_object_key, csv_file_name.
  split.
  - change (bucket +:+ "/" +:+ dirs +:+ "/" +:+ stem +:+ "." +:+ ext)
      with (bucket +:+ String "/" (dirs +:+ String "/" (stem +:+ String "." ext))).
    rewrite (bucket_of_path bucket _ Hb).
    rewrite (path_assoc bucket "/" dirs).
    rewrite basename_of_path by (rewrite lacks_app, Hs; simpl; rewrite He; reflexivity).
    unfold Str.rsplit1. rewrite (cut_last_app "." stem ext Hd). reflexivity.
  - intros Hnd.
    change (bucket +:+ "/" +:+ dirs +:+ "/" +:+ stem)
      with (bucket +:+ String "/" (dirs +:+ String "/" stem)).
    rewrite (bucket_of_path bucket _ Hb).
    rewrite (path_assoc bucket "/" dirs).
    rewrite (basename_of_path _ stem Hs).
    unfold Str.rsplit1. rewrite (cut_last_lacks "." stem Hnd). reflexivity.
Qed.

Lemma transformed_locator_of_nested_key_witness :
  transformed_locator "bucket/raw/2024/01/x.tar.json" = "bucket/transformed/x.tar.csv".
Proof.
  apply (transformed_locator_of_nested_key "bucket" "raw/2024/01" "x.tar" "json");
    reflexivity.
Defined.

(** ** The object key of the download *)

Lemma startswith_app (a p s : string) :
  Str.startswith (a +:+ p) (a +:+ s) = Str.startswith p s.
Proof.
  induction a as [|c a IH]; [reflexivity|].
  rewrite !append_cons. simpl. rewrite Ascii.eqb_refl, IH. reflexivity.
Qed.

Lemma replace_from_skip_all (old new a s : string) :
  Str.replace_from old new (String.length a) (a +:+ s) = Str.replace_from old new 0 s.
Proof.
  induction a as [|c a IH]; [reflexivity|].
  rewrite append_cons. simpl. exact IH.
Qed.

Lemma startswith_self (a s : string) : Str.startswith a (a +:+ s) = true.
Proof.
  induction a as [|c a IH]; [reflexivity|].
  rewrite append_cons. simpl. rewrite Ascii.eqb_refl. exact IH.
Qed.

Lemma replace_leading (old new s : string) :
  old <> EmptyString ->
  Str.replace_from old new 0 (old +:+ s) = new +:+ Str.replace_from old new 0 s.
Proof.
  intros Hne. destruct old as [|x o]; [contradiction|].
  pose proof (startswith_self (String x o) s) as Hstart.
  rewrite append_cons in *. rewrite replace_from_match by exact Hstart.
  simpl Nat.pred. rewrite replace_from_skip_all. reflexivity.
Qed.

(** Whether [b/] opens [p/s], for [b] and [p] without a slash. *)
Lemma startswith_segment (c : ascii) (b p s : string) :
  Str.lacks c b = true -> Str.lacks c p = true ->
  Str.startswith (b +:+ String c EmptyString) (p +:+ String c s) = String.eqb b p.
Proof.
  revert p. induction b as [|y b IH]; intros p Hb Hp.
  - destruct p as [|x p].
    + simpl. rewrite Ascii.eqb_refl. reflexivity.
    + simpl in Hp. apply andb_prop in Hp as [Hx _]. apply negb_true_iff in Hx.
      rewrite ?append_cons. simpl. rewrite Ascii.eqb_sym, Hx. reflexivity.
  - simpl in Hb. apply andb_prop in Hb as [Hy Hb]. apply negb_true_iff in Hy.
    destruct p as [|x p].
    + rewrite ?append_cons. simpl. rewrite Hy. reflexivity.
    + simpl in Hp. apply andb_prop in Hp as [_ Hp].
      rewrite ?append_cons. simpl. rewrite (IH p Hb Hp). reflexivity.
Qed.

Lemma object_key_of_raw_locator (bucket name : string) :
  Str.lacks "/" bucket = true ->
  Str.lacks "/" name = true ->
  locator_object_key (raw_key_of bucket name) =
  raw_prefix_left bucket +:+ name +:+ ".json".
Proof.
  intros Hb Hn.
  destruct (raw_locator_names bucket name Hb Hn) as (Hlb & _ & _).
  fold (raw_key_of bucket name) in Hlb.
  unfold locator_object_key. rewrite Hlb. unfold Str.replace, raw_key_of.
  set (N := name +:+ ".json").
  assert (HN : Str.lacks "/" N = true).
  { unfold N. rewrite lacks_app, Hn. reflexivity. }
  set (old := bucket +:+ "/").
  assert (Hold : Str.lacks "/" old = false).
  { unfold old. rewrite lacks_app, Hb. reflexivity. }
  assert (Hne : old <> EmptyString).
  { intros H. rewrite H in Hold. discriminate. }
  change (bucket +:+ "/raw/" +:+ N) with (bucket +:+ String "/" (EmptyString +:+ "raw/" +:+ N)).
  rewrite (path_assoc bucket "/" EmptyString). fold old.
  change ((bucket +:+ String "/" EmptyString)) with old.
  rewrite (replace_leading old EmptyString _ Hne).
  change (EmptyString +:+ ?x) with x.
  assert (H3 : Str.startswith old ("raw" +:+ String "/" N) = String.eqb bucket "raw")
    by (apply startswith_segment; [exact Hb|reflexivity]).
  assert (H2 : Str.startswith old ("aw" +:+ String "/" N) = String.eqb bucket "aw")
    by (apply startswith_segment; [exact Hb|reflexivity]).
  assert (H1 : Str.startswith old ("w" +:+ String "/" N) = String.eqb bucket "w")
    by (apply startswith_segment; [exact Hb|reflexivity]).
  assert (H0 : Str.startswith old (EmptyString +:+ String "/" N) = String.eqb bucket EmptyString)
    by (apply startswith_segment; [exact Hb|reflexivity]).
  pose proof (replace_lacks "/" old EmptyString N HN Hold) as Hrest.
  unfold raw_prefix_left.
  change ("raw/" +:+ N) with ("raw" +:+ String "/" N).
  destruct (String.eqb bucket "raw") eqn:E3.
  { apply String.eqb_eq in E3. subst bucket.
    change ("raw" +:+ String "/" N) with (old +:+ N).
    rewrite (replace_leading old EmptyString N Hne), Hrest. reflexivity. }
  change ("raw" +:+ String "/" N) with (String "r" ("aw" +:+ String "/" N)) in *.
  rewrite replace_from_other by exact H3.
  destruct (String.eqb bucket "aw") eqn:E2.
  { apply String.eqb_eq in E2. subst bucket.
    change ("aw" +:+ String "/" N) with (old +:+ N).
    rewrite (replace_leading old EmptyString N Hne), Hrest. reflexivity. }
  change ("aw" +:+ String "/" N) with (String "a" ("w" +:+ String "/" N)) in *.
  rewrite replace_from_other by exact H2.
  destruct (String.eqb bucket "w") eqn:E1.
  { apply String.eqb_eq in E1. subst bucket.
    change ("w" +:+ String "/" N) with (old +:+ N).
    rewrite (replace_leading old EmptyString N Hne), Hrest. reflexivity. }
  change ("w" +:+ String "/" N) with (String "w" (EmptyString +:+ String "/" N)) in *.
  rewrite replace_from_other by exact H1.
  destruct (String.eqb bucket EmptyString) eqn:E0.
  { apply String.eqb_eq in E0. subst bucket.
    change (EmptyString +:+ String "/" N) with (old +:+ N).
    rewrite (replace_leading old EmptyString N Hne), Hrest. reflexivity. }
  change (EmptyString +:+ String "/" N) with (String "/" N) in *.
  rewrite replace_from_other by exact H0.
  rewrite Hrest. reflexivity.
Qed.

Lemma length_append (a b : string) :
  String.length (a +:+ b) = (String.length a + String.length b)%nat.
Proof.
  induction a as [|c a IH]; [reflexivity|].
  rewrite append_cons. simpl. rewrite IH. reflexivity.
Qed.

(** X6.  The key [transform] downloads is the key [extract_spotify_data]
    stored the object under, except for the buckets named [raw], [aw],
    [w] or with the empty name: [replace] removes every occurrence of
    the bucket name followed by a slash, and for these names one lies
    inside [raw/]. *)
Theorem download_key_is_the_raw_key (bucket name : string) :
  Str.lacks "/" bucket = true ->
  Str.lacks "/" name = true ->
  (locator_object_key (raw_key_of bucket name) = "raw/" +:+ name +:+ ".json"
   <-> suffix_of_raw bucket = false).
Proof.
  intros Hb Hn. rewrite (object_key_of_raw_locator bucket name Hb Hn).
  unfold raw_prefix_left, suffix_of_raw.
  destruct (String.eqb bucket "raw"), (String.eqb bucket "aw"), (String.eqb bucket "w"),
    (String.eqb bucket EmptyString); simpl;
    (split; [intros H; apply (f_equal String.length) in H;
             rewrite ?length_append in H; simpl in H; try lia; reflexivity
            | intros H; try discriminate; reflexivity]).
Qed.

Lemma download_key_is_the_raw_key_witness :
  locator_object_key (raw_key_of "poc_etl" "x") = "raw/x.json" /\
  locator_object_key (raw_key_of "aw" "x") <> "raw/x.json".
Proof.
  split.
  - apply (download_key_is_the_raw_key "poc_etl" "x"); reflexivity.
  - intros H. apply (download_key_is_the_raw_key "aw" "x") in H; [discriminate|reflexivity..].
Defined.

(** ** The lines of the file written *)







(** ** Parts of the world a stage leaves alone *)

Lemma preserves_bind {A B C} (f : world -> C) (m : M A) (k : A -> M B) :
  preserves f m -> (forall a, preserves f (k a)) -> preserves f (bind m k).
Proof.
  intros Hm Hk w. unfold bind. specialize (Hm w).
  destruct (m w) as [[a|e] w1]; simpl in *.
  - rewrite Hk. exact Hm.
  - exact Hm.
Qed.

Lemma preserves_ret {A B} (f : world -> B) (a : A) : preserves f (ret a).
Proof. intros w. reflexivity. Qed.

Lemma preserves_raise {A B} (f : world -> B) (e : exn) : preserves f (@raise A e).
Proof. intros w. reflexivity. Qed.

Lemma preserves_lift {A B} (f : world -> B) (r : result A) : preserves f (lift r).
Proof. intros w. reflexivity. Qed.

Lemma preserves_fault {B} (f : world -> B) (E : env) (s : site) : preserves f (fault E s).
Proof. unfold fault. destruct (faults E s); [apply preserves_raise|apply preserves_ret]. Qed.

Lemma preserves_get_world {B} (f : world -> B) : preserves f get_world.
Proof. intros w. reflexivity. Qed.

Lemma preserves_try_except {A B} (f : world -> B) (body : M A)
    (handlers : list ((exn -> bool) * (exn -> M A))) :
  preserves f body ->
  Forall (fun h => forall e, preserves f (snd h e)) handlers ->
  preserves f (try_except body handlers).
Proof.
  intros Hb Hh w. unfold try_except. specialize (Hb w).
  destruct (body w) as [[a|e] w1]; simpl in *; [exact Hb|].
  destruct (find_handler handlers e) as [h|] eqn:Hf; simpl; [|exact Hb].
  assert (Hp : preserves f (h e)).
  { clear -Hh Hf. induction Hh as [|[acc h'] hs Hx _ IH]; simpl in Hf; [discriminate|].
    destruct (acc e); [injection Hf as <-; apply Hx|apply IH, Hf]. }
  rewrite Hp. exact Hb.
Qed.

Ltac preserves_step :=
  first
    [ apply preserves_ret
    | apply preserves_raise
    | apply preserves_lift
    | apply preserves_fault
    | apply preserves_get_world
    | apply preserves_bind; [|intros ?]
    | apply preserves_try_except; [|repeat constructor; intros ?]
    | match goal with
      | |- preserves _ (match ?x with _ => _ end) => destruct x
      | |- preserves _ (let '(_, _) := ?x in _) => destruct x
      end
    | (intros ?; reflexivity) ].

Ltac unfold_stages :=
  unfold extract_spotify_data, transform, transform_download, transform_try,
    transform_parse, upload_object_to_bucket, upload_try, load, load_ensure_dataset,
    load_into_table, load_try, remove_duplicates,
    storage_Client, get_bucket, upload_from_filename, download_to_filename,
    os_path_exists, os_makedirs, write_file, open_read, json_load, shutil_rmtree,
    datetime_now, requests_get, bigquery_Client, get_dataset, create_dataset, get_table,
    client_query, query_result, load_table_from_uri, load_job_result, exit;
  cbv zeta.

Lemma extract_preserves_warehouse (E : env) (bucket : string) :
  preserves datasets (extract_spotify_data E bucket) /\
  preserves tables (extract_spotify_data E bucket).
Proof. split; unfold_stages; repeat preserves_step. Qed.

Lemma transform_preserves_warehouse (E : env) (key : string) :
  preserves datasets (transform E key) /\ preserves tables (transform E key).
Proof. split; unfold_stages; repeat preserves_step. Qed.

Lemma load_preserves_storage (E : env) (key : string) :
  preserves local_files (load E key) /\ preserves local_dirs (load E key) /\
  preserves buckets (load E key) /\ preserves objects (load E key).
Proof. repeat split; unfold_stages; repeat preserves_step. Qed.

Lemma stages_preserve_buckets (E : env) (s : string) :
  preserves buckets (extract_spotify_data E s) /\ preserves buckets (transform E s).
Proof. split; unfold_stages; repeat preserves_step. Qed.

(** ** What the helper and the extract stage store *)

(** X8.  Whatever happens in it, [upload_object_to_bucket] changes no
    local file, no directory and no bucket, and no object other than the
    one under the key it was given; what is found under that key
    afterwards was there before or is the content of the local file. *)
Theorem upload_touches_one_object (E : env) (bucket path : string) (key : option string)
    (w : world) :
  let w' := snd (upload_object_to_bucket E bucket path key w) in
  local_files w' = local_files w /\
  local_dirs w' = local_dirs w /\
  buckets w' = buckets w /\
  (forall k, k <> (bucket, default path key) -> objects w' !! k = objects w !! k) /\
  (forall c, objects w' !! (bucket, default path key) = Some c ->
             objects w !! (bucket, default path key) = Some c \/
             local_files w !! path = Some c).
Proof.
  unfold upload_object_to_bucket, upload_try. expose.
  destruct (faults E (StorageClient Store)) as [e1|]; simpl.
  { destruct (is_Exception e1), (is_FileNotFoundError e1); simpl; auto 10. }
  destruct (faults E (GetBucket Store)) as [e2|]; simpl.
  { destruct (is_Exception e2), (is_FileNotFoundError e2); simpl; auto 10. }
  destruct (decide (bucket ∈ buckets w)); simpl; [|auto 10].
  destruct (local_files w !! path) as [c|] eqn:Hc; simpl; [|auto 10].
  destruct (faults E UploadFromFilename) as [e3|]; simpl.
  { destruct (is_Exception e3), (is_FileNotFoundError e3); simpl; auto 10. }
  repeat split.
  - intros k Hk. destruct key; simpl in *; apply lookup_insert_ne; congruence.
  - intros c'. destruct key; simpl; rewrite lookup_insert_eq; intros [= <-]; auto.
Qed.

Lemma upload_touches_one_object_witness :
  local_files (snd (upload_object_to_bucket
                      (sample_env 200 (Ok sample_document) (Ok []) [])
                      "poc_etl" "/tmp/x.json" (Some "raw/x.json")
                      (sample_world ["poc_etl"] None None)))
  = local_files (sample_world ["poc_etl"] None None).
Proof.
  destruct (upload_touches_one_object
              (sample_env 200 (Ok sample_document) (Ok []) [])
              "poc_etl" "/tmp/x.json" (Some "raw/x.json")
              (sample_world ["poc_etl"] None None)) as [H _].
  exact H.
Defined.

(** [os.makedirs] makes the directories the program asks for. *)
Lemma makedirs_makes_raw_dir :
  raw_dir ∈ (list_to_set (dir_prefixes EmptyString raw_dir) : gset string).
Proof. apply elem_of_list_to_set, list_elem_of_In. vm_compute. tauto. Qed.

Lemma extract_stores (E : env) (bucket : string) (w : world) (resp : http_response)
    (data : json) :
  api E (extract_request E w) = Ok resp ->
  body_json resp = Ok data ->
  bool_decide (raw_dir ∈ local_dirs w) || quiet E Makedirs = true ->
  quiet E OpenWrite = true ->
  ordinary E (StorageClient Store) = true ->
  ordinary E (GetBucket Store) = true ->
  ordinary E UploadFromFilename = true ->
  exists w',
    extract_spotify_data E bucket w = (Ok (raw_locator E w bucket), w') /\
    local_files w' = <[raw_file_name E w := JsonText data]> (local_files w) /\
    raw_dir ∈ local_dirs w' /\
    objects w' = (if upload_possible E w bucket
                  then <[(bucket, raw_object_key E w) := JsonText data]> (objects w)
                  else objects w) /\
    buckets w' = buckets w.
Proof.
  intros Hapi Hbody Hdir Hwr H1 H2 H3.
  unfold extract_spotify_data. expose. simpl.
  fold (extract_request E w). rewrite Hapi, Hbody.
  unfold quiet in Hdir, Hwr.
  destruct (faults E OpenWrite); [discriminate|].
  destruct (bool_decide (raw_dir ∈ local_dirs w)) eqn:Hd; simpl in *;
    [|destruct (faults E Makedirs); [discriminate|]; simpl].
  all: match goal with
       | |- context [upload_object_to_bucket ?E0 ?b ?p ?k ?w1] =>
           destruct (upload_object_to_bucket_spec E0 b p k w1 H1 H2 H3)
             as (w' & Hu & Hobj & Hfiles & Hdirs & Hbk & _);
           rewrite Hu;
           assert (Hposs : upload_unhindered E0 w1 b p = upload_possible E0 w bucket)
             by (unfold upload_unhindered, upload_possible; simpl;
                 rewrite lookup_insert_eq;
                 rewrite (bool_decide_eq_true_2 (is_Some (Some (JsonText data))))
                   by (eexists; reflexivity);
                 apply andb_true_r);
           rewrite Hposs in *; simpl in *; rewrite lookup_insert_eq in Hobj
       end.
  all: exists w'; split; [reflexivity|]; split; [exact Hfiles|]; split;
    [|split; [exact Hobj|exact Hbk]].
  - rewrite Hdirs. eapply bool_decide_eq_true. exact Hd.
  - rewrite Hdirs. apply elem_of_union_r. exact makedirs_makes_raw_dir.
Qed.

(** X9.  When the request succeeds and its body is JSON,
    [extract_spotify_data] writes the document as it came to the local
    file named after the time of the run, keeps that file, and stores
    the same content in the bucket when the upload is possible; an
    existing directory is not created again, so a failing [makedirs] is
    of no consequence then. *)
Theorem extract_stores_the_document (E : env) (bucket : string) (w : world)
    (resp : http_response) (data : json) :
  api E (extract_request E w) = Ok resp ->
  body_json resp = Ok data ->
  bool_decide (raw_dir ∈ local_dirs w) || quiet E Makedirs = true ->
  quiet E OpenWrite = true ->
  ordinary E (StorageClient Store) = true ->
  ordinary E (GetBucket Store) = true ->
  ordinary E UploadFromFilename = true ->
  exists w',
    extract_spotify_data E bucket w = (Ok (raw_locator E w bucket), w') /\
    local_files w' = <[raw_file_name E w := JsonText data]> (local_files w) /\
    raw_dir ∈ local_dirs w' /\
    objects w' = (if upload_possible E w bucket
                  then <[(bucket, raw_object_key E w) := JsonText data]> (objects w)
                  else objects w) /\
    buckets w' = buckets w.
Proof. apply extract_stores. Qed.

Lemma extract_stores_the_document_witness :
  exists w',
    extract_spotify_data (sample_env 200 (Ok sample_document) (Ok []) []) "poc_etl"
      (sample_world ["poc_etl"] None None)
    = (Ok "poc_etl/raw/2024-01-02_00-00-00_spotify_data.json", w') /\
    objects w' !! ("poc_etl", "raw/2024-01-02_00-00-00_spotify_data.json")
    = Some (JsonText sample_document) /\
    local_files w' !! "/home/airflow/spotify_data/raw/2024-01-02_00-00-00_spotify_data.json"
    = Some (JsonText sample_document).
Proof.
  destruct (extract_stores_the_document
              (sample_env 200 (Ok sample_document) (Ok []) []) "poc_etl"
              (sample_world ["poc_etl"] None None)
              {| status_code := 200; body_json := Ok sample_document |} sample_document)
    as (w' & Hrun & Hfiles & _ & Hobj & _); [reflexivity..|].
  exists w'. split; [exact Hrun|]. rewrite Hobj, Hfiles.
  split; [vm_compute; reflexivity|apply lookup_insert_eq].
Defined.

(** X10.  When the scratch directory is missing and cannot be created,
    [extract_spotify_data] raises that exception after the request has
    been sent: nothing is written and nothing is uploaded. *)
Theorem extract_without_its_directory (E : env) (bucket : string) (w : world)
    (resp : http_response) (data : json) (e : exn) :
  api E (extract_request E w) = Ok resp ->
  body_json resp = Ok data ->
  raw_dir ∉ local_dirs w ->
  faults E Makedirs = Some e ->
  exists w',
    extract_spotify_data E bucket w = (Raise e, w') /\
    calls w' = calls w ++ [HttpGet (extract_request E w)] /\
    local_files w' = local_files w /\
    local_dirs w' = local_dirs w /\
    objects w' = objects w.
Proof.
  intros Hapi Hbody Hdir Hmk.
  unfold extract_spotify_data. expose. simpl.
  fold (extract_request E w). rewrite Hapi, Hbody, Hmk.
  rewrite (bool_decide_eq_false_2 _ Hdir). simpl.
  eexists. split; [reflexivity|]. simpl. auto.
Qed.

Lemma extract_without_its_directory_witness :
  exists w',
    extract_spotify_data
      (sample_env 200 (Ok sample_document) (Ok []) [(Makedirs, OSError)]) "poc_etl"
      (sample_world ["poc_etl"] None None)
    = (Raise OSError, w') /\
    objects w' = objects (sample_world ["poc_etl"] None None).
Proof.
  destruct (extract_without_its_directory
              (sample_env 200 (Ok sample_document) (Ok []) [(Makedirs, OSError)])
              "poc_etl" (sample_world ["poc_etl"] None None)
              {| status_code := 200; body_json := Ok sample_document |} sample_document
              OSError)
    as (w' & Hrun & _ & _ & _ & Hobj); [reflexivity|reflexivity|set_solver|reflexivity|].
  exists w'. split; assumption.
Defined.

(** ** The scratch tree *)

Lemma rmtree_files (root : string) (m : gmap string file_content) (p : string) :
  filter (fun kv : string * file_content => Str.startswith root (fst kv) = false) m !! p
  = if Str.startswith root p then None else m !! p.
Proof.
  rewrite map_lookup_filter. destruct (m !! p) as [c|]; simpl.
  - destruct (Str.startswith root p) eqn:Hs.
    + rewrite option_guard_False; [reflexivity|]. discriminate.
    + rewrite option_guard_True; reflexivity.
  - destruct (Str.startswith root p); reflexivity.
Qed.

Lemma under_scratch_raw (s : string) : Str.startswith scratch_root (raw_dir +:+ s) = true.
Proof.
  change (raw_dir +:+ s) with (scratch_root +:+ ("raw/" +:+ s)). apply startswith_self.
Qed.

Lemma under_scratch_transformed (s : string) :
  Str.startswith scratch_root (transformed_dir +:+ s) = true.
Proof.
  change (transformed_dir +:+ s) with (scratch_root +:+ ("transformed/" +:+ s)).
  apply startswith_self.
Qed.

#[local] Arguments Str.startswith : simpl never.

Lemma transform_cleans (E : env) (key : string) (w : world) (data : json) (df : DataFrame) :
  only_upload_faults E = true ->
  locator_bucket key ∈ buckets w ->
  objects w !! (locator_bucket key, locator_object_key key) = Some (JsonText data) ->
  build_song_df data = Ok df ->
  exists w',
    transform E key w = (Ok (transformed_locator key), w') /\
    (forall p, local_files w' !! p =
               if Str.startswith scratch_root p then None else local_files w !! p) /\
    (forall d, d ∈ local_dirs w' -> Str.startswith scratch_root d = false).
Proof.
  intros Hplan Hb Hobj Hdf.
  pose proof (only_upload_faults_site E (StorageClient Fetch) Hplan) as Q1.
  pose proof (only_upload_faults_site E (GetBucket Fetch) Hplan) as Q2.
  pose proof (only_upload_faults_site E DownloadToFilename Hplan) as Q3.
  pose proof (only_upload_faults_site E OpenRead Hplan) as Q4.
  pose proof (only_upload_faults_site E Makedirs Hplan) as Q5.
  pose proof (only_upload_faults_site E ToCsv Hplan) as Q6.
  pose proof (only_upload_faults_site E Rmtree Hplan) as Q7.
  pose proof (only_upload_faults_site E (StorageClient Store) Hplan) as H1.
  pose proof (only_upload_faults_site E (GetBucket Store) Hplan) as H2.
  pose proof (only_upload_faults_site E UploadFromFilename Hplan) as H3.
  simpl in Q1, Q2, Q3, Q4, Q5, Q6, Q7, H1, H2, H3.
  unfold transform, transform_download, transform_parse. expose.
  rewrite (transform_try_downloads E key w _ Q1 Q2 Q3 Hb Hobj).
  unfold quiet in Q4, Q5, Q6, Q7.
  destruct (faults E OpenRead); [discriminate|].
  destruct (faults E Makedirs); [discriminate|].
  destruct (faults E ToCsv); [discriminate|].
  destruct (faults E Rmtree); [discriminate|].
  simpl. rewrite lookup_insert_eq. rewrite Hdf. simpl.
  rewrite locator_basename_last. simpl. rewrite rsplit1_first. simpl.
  fold (csv_file_name key).
  destruct (bool_decide (transformed_dir ∈ local_dirs w)); simpl;
    match goal with
    | |- context [upload_object_to_bucket E ?b ?p ?k ?w1] =>
        destruct (upload_object_to_bucket_spec E b p k w1 H1 H2 H3)
          as (w' & Hu & _ & Hfiles & Hdirs & _);
        rewrite Hu; simpl in Hfiles, Hdirs
    end;
    (eexists; split; [reflexivity|]; simpl; split;
     [ intros p; rewrite rmtree_files, Hfiles;
       destruct (Str.startswith scratch_root p) eqn:Hp; [reflexivity|];
       rewrite !lookup_insert_ne; [reflexivity| |];
       intros <-; [rewrite under_scratch_raw in Hp|rewrite under_scratch_transformed in Hp];
       discriminate
     | intros d Hd; apply elem_of_filter in Hd as [Hd _]; exact Hd ]).
Qed.





(** ** What a load leaves in the table *)

Lemma load_succeeds_fully (E : env) (key : string) (w : world) (t rows : list row) :
  no_faults E = true ->
  (project E +:+ "." +:+ dataset_id) ∈ datasets w ->
  tables w !! table_id E = Some t ->
  ingest E ("gs://" +:+ key) = Ok rows ->
  exists w',
    load E key w = (Ok true, w') /\
    tables w' = <[table_id E := select_distinct (t ++ rows)]> (tables w) /\
    datasets w' = datasets w /\
    reported_new_records w' =
      Some (Z.of_nat (length (select_distinct (t ++ rows))) - Z.of_nat (length t)) /\
    In (BqLoad ("gs://" +:+ key) (table_id E)) (calls w').
Proof.
  intros Hnf Hds Ht Hrows.
  unfold load, load_ensure_dataset, load_into_table, load_try, remove_duplicates. expose.
  rewrite !(no_faults_site E _ Hnf).
  destruct (decide (project E +:+ "." +:+ dataset_id ∈ datasets w)); [|contradiction].
  simpl. repeat (first [rewrite Ht | rewrite Hrows | rewrite lookup_insert_eq]; simpl).
  eexists. split; [reflexivity|]. simpl.
  split; [apply insert_insert_eq|]. split; [reflexivity|]. split.
  - unfold reported_new_records. simpl. rewrite last_last. reflexivity.
  - apply in_or_app. left. apply in_or_app. left. apply in_or_app. right. left. reflexivity.
Qed.

Lemma length_select_distinct (l : list row) :
  (length (select_distinct l) <= length l)%nat.
Proof.
  unfold select_distinct. induction l as [|x l IH]; simpl; [lia|].
  destruct (decide_rel elem_of x l); simpl; lia.
Qed.

(** X13.  A load in which nothing fails returns True and leaves in the
    table the rows it held and the rows of the file, each once; no
    other table is changed, and the count reported is the difference of
    the lengths, at most the number of rows of the file. *)
Theorem load_merges_and_deduplicates (E : env) (key : string) (w : world)
    (t rows : list row) :
  no_faults E = true ->
  (project E +:+ "." +:+ dataset_id) ∈ datasets w ->
  tables w !! table_id E = Some t ->
  ingest E ("gs://" +:+ key) = Ok rows ->
  exists w' t',
    load E key w = (Ok true, w') /\
    tables w' !! table_id E = Some t' /\
    NoDup t' /\
    (forall r, r ∈ t' <-> r ∈ t \/ r ∈ rows) /\
    (forall id, id <> table_id E -> tables w' !! id = tables w !! id) /\
    reported_new_records w' = Some (Z.of_nat (length t') - Z.of_nat (length t)) /\
    Z.of_nat (length t') - Z.of_nat (length t) <= Z.of_nat (length rows).
Proof.
  intros Hnf Hds Ht Hrows.
  destruct (load_succeeds_fully E key w t rows Hnf Hds Ht Hrows)
    as (w' & Hrun & Htab & _ & Hrep & _).
  exists w', (select_distinct (t ++ rows)).
  split; [exact Hrun|]. rewrite Htab.
  split; [apply lookup_insert_eq|].
  split; [apply NoDup_remove_dups|].
  split; [intros r; unfold select_distinct; rewrite elem_of_remove_dups, elem_of_app; tauto|].
  split; [intros id Hid; apply lookup_insert_ne; congruence|].
  split; [exact Hrep|].
  pose proof (length_select_distinct (t ++ rows)) as Hlen.
  rewrite length_app in Hlen. lia.
Qed.

Lemma load_merges_and_deduplicates_witness :
  exists w' t',
    load (sample_env 200 (Ok sample_document) (Ok [sample_row; sample_row]) [])
         "poc_etl/transformed/x.csv" (sample_world [] None (Some [])) = (Ok true, w') /\
    tables w' !! "demo.Spotify_Data.recently_played" = Some t' /\
    NoDup t' /\
    reported_new_records w' = Some (Z.of_nat (length t') - 0).
Proof.
  destruct (load_merges_and_deduplicates
              (sample_env 200 (Ok sample_document) (Ok [sample_row; sample_row]) [])
              "poc_etl/transformed/x.csv" (sample_world [] None (Some []))
              [] [sample_row; sample_row])
    as (w' & t' & H1 & H2 & H3 & _ & _ & H6 & _);
    [reflexivity|vm_compute; reflexivity|reflexivity|reflexivity|].
  exists w', t'. repeat split; assumption.
Defined.

(** X14.  Loading the same file a second time adds nothing: the second
    run reports 0 new records and leaves the rows of the first run,
    whatever the table held at the start. *)
Theorem second_load_adds_nothing (E : env) (key : string) (w : world) (t rows : list row) :
  no_faults E = true ->
  (project E +:+ "." +:+ dataset_id) ∈ datasets w ->
  tables w !! table_id E = Some t ->
  ingest E ("gs://" +:+ key) = Ok rows ->
  exists w1 w2 t1 t2,
    load E key w = (Ok true, w1) /\
    load E key w1 = (Ok true, w2) /\
    tables w1 !! table_id E = Some t1 /\
    tables w2 !! table_id E = Some t2 /\
    t2 ≡ₚ t1 /\
    reported_new_records w2 = Some 0.
Proof.
  intros Hnf Hds Ht Hrows.
  destruct (load_succeeds_fully E key w t rows Hnf Hds Ht Hrows)
    as (w1 & Hrun1 & Htab1 & Hds1 & _).
  assert (Ht1 : tables w1 !! table_id E = Some (select_distinct (t ++ rows)))
    by (rewrite Htab1; apply lookup_insert_eq).
  rewrite <- Hds1 in Hds.
  destruct (load_succeeds_fully E key w1 _ rows Hnf Hds Ht1 Hrows)
    as (w2 & Hrun2 & Htab2 & _ & Hrep & _).
  assert (Hperm : select_distinct (select_distinct (t ++ rows) ++ rows)
                  ≡ₚ select_distinct (t ++ rows)).
  { apply NoDup_Permutation; try apply NoDup_remove_dups.
    intros r. unfold select_distinct.
    rewrite !elem_of_remove_dups, !elem_of_app, elem_of_remove_dups, elem_of_app. tauto. }
  exists w1, w2, (select_distinct (t ++ rows)),
    (select_distinct (select_distinct (t ++ rows) ++ rows)).
  split; [exact Hrun1|]. split; [exact Hrun2|]. split; [exact Ht1|].
  split; [rewrite Htab2; apply lookup_insert_eq|]. split; [exact Hperm|].
  rewrite Hrep, (Permutation_length Hperm). f_equal. lia.
Qed.

Lemma second_load_adds_nothing_witness :
  exists w1 w2,
    load (sample_env 200 (Ok sample_document) (Ok [sample_row]) [])
         "poc_etl/transformed/x.csv" (sample_world [] None (Some [])) = (Ok true, w1) /\
    load (sample_env 200 (Ok sample_document) (Ok [sample_row]) [])
         "poc_etl/transformed/x.csv" w1 = (Ok true, w2) /\
    reported_new_records w2 = Some 0.
Proof.
  destruct (second_load_adds_nothing
              (sample_env 200 (Ok sample_document) (Ok [sample_row]) [])
              "poc_etl/transformed/x.csv" (sample_world [] None (Some [])) [] [sample_row])
    as (w1 & w2 & t1 & t2 & H1 & H2 & _ & _ & _ & H6);
    [reflexivity|vm_compute; reflexivity|reflexivity|reflexivity|].
  exists w1, w2. repeat split; assumption.
Defined.

(** ** Every outcome of the load stage *)

(** Every path through a stage, one goal each. *)
Ltac paths E w :=
  expose;
  repeat (simpl;
          first
            [ rewrite lookup_insert_eq
            | match goal with H : tables w !! _ = _ |- _ => rewrite H end
            | match goal with
              | |- context [faults E ?s] => destruct (faults E s) as [?|] eqn:?
              | |- context [if is_Exception ?e then _ else _] =>
                  destruct (is_Exception e) eqn:?
              | |- context [if is_NotFound ?e then _ else _] =>
                  destruct (is_NotFound e) eqn:?
              | |- context [decide ?P] => destruct (decide P)
              | |- context [tables w !! ?k] => destruct (tables w !! k) eqn:?
              | |- context [ingest E ?u] => destruct (ingest E u) eqn:?
              end ]);
  simpl.

Lemma load_ensure_dataset_outcomes (E : env) (w : world) :
  tables (snd (load_ensure_dataset E w)) = tables w /\
  (fst (load_ensure_dataset E w) = Ok None ->
   (project E +:+ "." +:+ dataset_id) ∈ datasets (snd (load_ensure_dataset E w))) /\
  fst (load_ensure_dataset E w) <> Ok (Some true).
Proof.
  unfold load_ensure_dataset. paths E w.
  all: split; [reflexivity|]; split; try discriminate; intros _; try assumption; set_solver.
Qed.

Lemma load_into_table_outcomes (E : env) (key : string) (w : world) :
  datasets (snd (load_into_table E key w)) = datasets w /\
  fst (load_into_table E key w) <> Ok (Some true) /\
  ((tables (snd (load_into_table E key w)) = tables w /\
    fst (load_into_table E key w) <> Ok None) \/
   exists t rows,
     tables w !! table_id E = Some t /\
     ingest E ("gs://" +:+ key) = Ok rows /\
     forallb (quiet E) (List.tl before_append) = true /\
     ((tables (snd (load_into_table E key w)) = <[table_id E := t ++ rows]> (tables w) /\
       fst (load_into_table E key w) <> Ok None) \/
      (tables (snd (load_into_table E key w))
         = <[table_id E := select_distinct (t ++ rows)]> (tables w) /\
       (fst (load_into_table E key w) = Ok None ->
        reported_new_records (snd (load_into_table E key w)) =
          Some (Z.of_nat (length (select_distinct (t ++ rows))) - Z.of_nat (length t)))))).
Proof.
  unfold before_append, quiet, load_into_table, load_try, remove_duplicates.
  paths E w.
  all: split; [reflexivity|]; split; [discriminate|].
  all: try (left; split; [reflexivity|discriminate]).
  all: right; eexists _, _; split; [reflexivity|]; split; [reflexivity|].
  all: cbn [forallb List.tl]; repeat match goal with H : faults _ _ = _ |- _ => rewrite H end.
  all: split; [reflexivity|].
  all: try (left; split; [reflexivity|discriminate]).
  all: right; split; [apply insert_insert_eq|]; try discriminate.
  all: intros _; unfold reported_new_records; simpl; rewrite last_last; reflexivity.
Qed.

Lemma load_outcomes (E : env) (key : string) (w : world) :
  (tables (snd (load E key w)) = tables w /\ fst (load E key w) <> Ok true) \/
  exists t rows,
    tables w !! table_id E = Some t /\
    ingest E ("gs://" +:+ key) = Ok rows /\
    forallb (quiet E) before_append = true /\
    ((tables (snd (load E key w)) = <[table_id E := t ++ rows]> (tables w) /\
      fst (load E key w) <> Ok true) \/
     (tables (snd (load E key w)) = <[table_id E := select_distinct (t ++ rows)]> (tables w) /\
      (fst (load E key w) = Ok true ->
       (project E +:+ "." +:+ dataset_id) ∈ datasets (snd (load E key w)) /\
       reported_new_records (snd (load E key w)) =
         Some (Z.of_nat (length (select_distinct (t ++ rows))) - Z.of_nat (length t))))).
Proof.
  destruct (load E key w) as [r w'] eqn:Hrun. simpl.
  unfold load in Hrun.
  cbv beta iota zeta delta [bind bigquery_Client fault ret raise] in Hrun.
  unfold before_append. cbn [forallb]. unfold quiet at 1.
  destruct (faults E BigqueryClient) as [e|] eqn:Hc;
    [injection Hrun as <- <-; left; split; [reflexivity|discriminate]|].
  destruct (load_ensure_dataset_outcomes E w) as (Ht & Hd & Hb).
  destruct (load_ensure_dataset E w) as [[[b|]|e] w1]; simpl in Ht, Hd, Hb.
  - injection Hrun as <- <-. left. split; [exact Ht|]. intros [= ->]. apply Hb. reflexivity.
  - destruct (load_into_table_outcomes E key w1) as (Hds & Hb' & Hcases).
    rewrite Ht in Hcases. fold (List.tl before_append).
    destruct (load_into_table E key w1) as [[[b|]|e] w2];
      simpl in Hds, Hb', Hcases; injection Hrun as <- <-.
    all: destruct Hcases as [[H1 H1']|(t & rows & H1 & H2 & H3 & [[H4 H4']|[H4 H4']])].
    all: try (left; split; [exact H1|]; try discriminate;
              try (intros [= ->]; apply Hb'; reflexivity);
              try (exfalso; apply H1'; reflexivity)).
    all: right; exists t, rows; repeat (split; [assumption|]).
    all: try (left; split; [exact H4|]; try discriminate;
              try (intros [= ->]; apply Hb'; reflexivity);
              try (exfalso; apply H4'; reflexivity)).
    all: right; split; [exact H4|]; try discriminate.
    + intros [= ->]. exfalso. apply Hb'. reflexivity.
    + intros _. rewrite Hds. auto.
  - injection Hrun as <- <-. left. split; [exact Ht|discriminate].
Qed.

(** X15.  Under every fault plan, [load] returns True only after a
    complete run: the table was there, the load job read the file, the
    table holds the distinct rows of both, the dataset exists and the
    count was reported. *)
Theorem load_true_means_loaded (E : env) (key : string) (w w' : world) :
  load E key w = (Ok true, w') ->
  exists t rows,
    tables w !! table_id E = Some t /\
    ingest E ("gs://" +:+ key) = Ok rows /\
    tables w' = <[table_id E := select_distinct (t ++ rows)]> (tables w) /\
    (project E +:+ "." +:+ dataset_id) ∈ datasets w' /\
    reported_new_records w' =
      Some (Z.of_nat (length (select_distinct (t ++ rows))) - Z.of_nat (length t)).
Proof.
  intros Hrun. pose proof (load_outcomes E key w) as H. rewrite Hrun in H. simpl in H.
  destruct H as [[_ H]|(t & rows & Ht & Hi & _ & [[_ H]|[Htab H]])]; try congruence.
  destruct (H eq_refl) as [Hd Hr]. exists t, rows. auto.
Qed.

Lemma load_true_means_loaded_witness :
  exists t,
    tables (snd (load (sample_env 200 (Ok sample_document) (Ok [sample_row; sample_row]) [])
                      "poc_etl/transformed/x.csv" (sample_world [] None (Some []))))
      !! "demo.Spotify_Data.recently_played" = Some t.
Proof.
  destruct (load_true_means_loaded
              (sample_env 200 (Ok sample_document) (Ok [sample_row; sample_row]) [])
              "poc_etl/transformed/x.csv" (sample_world [] None (Some []))
              (snd (load (sample_env 200 (Ok sample_document)
                            (Ok [sample_row; sample_row]) [])
                         "poc_etl/transformed/x.csv" (sample_world [] None (Some [])))))
    as (t & rows & _ & _ & Htab & _); [vm_compute; reflexivity|].
  eexists. rewrite Htab. apply lookup_insert_eq.
Defined.

(** X16.  Under every fault plan and however it ends, [load] loses no
    row: every row of every table is still in that table afterwards. *)
Theorem load_never_drops_a_row (E : env) (key : string) (w : world)
    (id : string) (t : list row) (r : row) :
  tables w !! id = Some t ->
  r ∈ t ->
  exists t', tables (snd (load E key w)) !! id = Some t' /\ r ∈ t'.
Proof.
  intros Ht Hr.
  destruct (load_outcomes E key w)
    as [[H _]|(t0 & rows & Ht0 & _ & _ & [[H _]|[H _]])]; rewrite H; clear H.
  - eauto.
  - destruct (decide (id = table_id E)) as [->|Hne].
    + rewrite lookup_insert_eq. eexists. split; [reflexivity|].
      rewrite Ht0 in Ht. injection Ht as ->. apply elem_of_app. auto.
    + rewrite lookup_insert_ne by congruence. eauto.
  - destruct (decide (id = table_id E)) as [->|Hne].
    + rewrite lookup_insert_eq. eexists. split; [reflexivity|].
      rewrite Ht0 in Ht. injection Ht as ->.
      unfold select_distinct. rewrite elem_of_remove_dups. apply elem_of_app. auto.
    + rewrite lookup_insert_ne by congruence. eauto.
Qed.

Lemma load_never_drops_a_row_witness :
  exists t',
    tables (snd (load (sample_env 200 (Ok sample_document) (Ok []) [(QueryCountAfter, GoogleAPIError 500)])
                      "poc_etl/transformed/x.csv"
                      (sample_world [] None (Some [sample_row]))))
      !! "demo.Spotify_Data.recently_played" = Some t' /\ sample_row ∈ t'.
Proof.
  apply (load_never_drops_a_row
           (sample_env 200 (Ok sample_document) (Ok []) [(QueryCountAfter, GoogleAPIError 500)])
           "poc_etl/transformed/x.csv" (sample_world [] None (Some [sample_row]))
           "demo.Spotify_Data.recently_played" [sample_row] sample_row);
    [reflexivity|apply list_elem_of_here].
Defined.

(** X17.  When the client, the table lookup, the first count or the load
    job fails, or the table is missing, every table is left as it was,
    and [load] does not return True. *)
Theorem failed_load_job_leaves_the_tables (E : env) (key : string) (w : world) :
  append_possible E key w = false ->
  tables (snd (load E key w)) = tables w /\ fst (load E key w) <> Ok true.
Proof.
  intros Hno.
  destruct (load_outcomes E key w) as [H|(t & rows & Ht & Hi & Hq & _)]; [exact H|].
  unfold append_possible in Hno. rewrite Hq, Hi, Ht in Hno.
  rewrite bool_decide_eq_true_2 in Hno by eauto. discriminate.
Qed.

Lemma failed_load_job_leaves_the_tables_witness :
  tables (snd (load (sample_env 200 (Ok sample_document) (Raise (GoogleAPIError 400)) [])
                    "poc_etl/transformed/x.csv"
                    (sample_world [] None (Some [sample_row]))))
  = tables (sample_world [] None (Some [sample_row])).
Proof.
  apply (failed_load_job_leaves_the_tables
           (sample_env 200 (Ok sample_document) (Raise (GoogleAPIError 400)) [])
           "poc_etl/transformed/x.csv" (sample_world [] None (Some [sample_row]))).
  reflexivity.
Defined.

(** X18.  [load] never creates the table: when it is missing, and the
    faults on the way are [Exception]s, [load] returns False without
    submitting a query or a load job, leaves the tables as they were,
    and has by then created the dataset if that did not fail. *)
Theorem load_without_the_table (E : env) (key : string) (w : world) :
  quiet E BigqueryClient = true ->
  dataset_lookup_plain E = true ->
  ordinary E CreateDataset = true ->
  ordinary E GetTable = true ->
  tables w !! table_id E = None ->
  exists w',
    load E key w = (Ok false, w') /\
    tables w' = tables w /\
    calls w' = calls w /\
    (quiet E CreateDataset = true ->
     (project E +:+ "." +:+ dataset_id) ∈ datasets w').
Proof.
  unfold quiet, dataset_lookup_plain, ordinary. intros Q1 Q2 Q3 Q4 Ht.
  unfold load, load_ensure_dataset, load_into_table, load_try. paths E w.
  all: try discriminate; try congruence.
  all: eexists; split; [reflexivity|]; simpl; repeat split; try discriminate.
  all: intros _; try assumption; set_solver.
Qed.

Lemma load_without_the_table_witness :
  exists w',
    load (sample_env 200 (Ok sample_document) (Ok [sample_row]) [])
         "poc_etl/transformed/x.csv" (sample_world [] None None) = (Ok false, w') /\
    tables w' = tables (sample_world [] None None).
Proof.
  destruct (load_without_the_table
              (sample_env 200 (Ok sample_document) (Ok [sample_row]) [])
              "poc_etl/transformed/x.csv" (sample_world [] None None))
    as (w' & H1 & H2 & _); [reflexivity..|].
  exists w'. split; assumption.
Defined.

(** ** The stages together *)

Lemma no_faults_quiet (E : env) (s : site) : no_faults E = true -> quiet E s = true.
Proof. intros H. unfold quiet. rewrite (no_faults_site E s H). reflexivity. Qed.

Lemma no_faults_ordinary (E : env) (s : site) : no_faults E = true -> ordinary E s = true.
Proof. intros H. unfold ordinary. rewrite (no_faults_site E s H). reflexivity. Qed.

Lemma transformed_key_of_raw_locator (E : env) (w : world) :
  Str.lacks "/" (stamp (clock E (S (ticks w)))) = true ->
  transformed_object_key (raw_locator E w BUCKET) = csv_object_key E w.
Proof.
  intros Hs. unfold transformed_object_key, csv_object_key.
  assert (Hk : raw_locator E w BUCKET
               = BUCKET +:+ "/raw/" +:+ (stamp (clock E (S (ticks w))) +:+ "_spotify_data")
                   +:+ ".json").
  { unfold raw_locator, raw_object_key. rewrite (app_assoc_str (stamp _)). reflexivity. }
  rewrite Hk.
  destruct (raw_locator_names BUCKET (stamp (clock E (S (ticks w))) +:+ "_spotify_data"))
    as (_ & _ & Hcsv); [reflexivity|rewrite lacks_app, Hs; reflexivity|].
  rewrite Hcsv, app_assoc_str. reflexivity.
Qed.

(** X19.  Under every fault plan and however they end, the extract and
    the transform stage change no dataset and no table, the load stage
    changes no local file, no directory and no object, and no stage
    changes the set of buckets. *)
Theorem stages_keep_to_their_stores (E : env) (s : string) (w : world) :
  (datasets (snd (extract_spotify_data E s w)) = datasets w /\
   tables (snd (extract_spotify_data E s w)) = tables w /\
   buckets (snd (extract_spotify_data E s w)) = buckets w) /\
  (datasets (snd (transform E s w)) = datasets w /\
   tables (snd (transform E s w)) = tables w /\
   buckets (snd (transform E s w)) = buckets w) /\
  (local_files (snd (load E s w)) = local_files w /\
   local_dirs (snd (load E s w)) = local_dirs w /\
   objects (snd (load E s w)) = objects w /\
   buckets (snd (load E s w)) = buckets w).
Proof.
  destruct (extract_preserves_warehouse E s) as [X1 X2].
  destruct (transform_preserves_warehouse E s) as [T1 T2].
  destruct (load_preserves_storage E s) as (L1 & L2 & L3 & L4).
  destruct (stages_preserve_buckets E s) as [B1 B2].
  repeat split; auto.
Qed.

(** X20.  The three tasks in a row, when nothing fails and the document
    is well formed: the run returns True, the raw document and its CSV
    text are in the bucket under the keys of the run, the URI the load
    job reads is the transformed object, the table holds the distinct
    rows, and no file is left under the scratch root. *)
Theorem dag_run_succeeds (E1 E2 E3 : env) (w : world) (resp : http_response)
    (data : json) (df : DataFrame) (t rows : list row) :
  no_faults E1 = true -> no_faults E2 = true -> no_faults E3 = true ->
  api E1 (extract_request E1 w) = Ok resp ->
  body_json resp = Ok data ->
  build_song_df data = Ok df ->
  Str.lacks "/" (stamp (clock E1 (S (ticks w)))) = true ->
  BUCKET ∈ buckets w ->
  (project E3 +:+ "." +:+ dataset_id) ∈ datasets w ->
  tables w !! table_id E3 = Some t ->
  ingest E3 ("gs://" +:+ BUCKET +:+ "/" +:+ csv_object_key E1 w) = Ok rows ->
  exists w',
    dag_run E1 E2 E3 w = (Ok true, w') /\
    objects w' !! (BUCKET, raw_object_key E1 w) = Some (JsonText data) /\
    objects w' !! (BUCKET, csv_object_key E1 w)
      = Some (PlainText (to_csv (cell_text E2) df)) /\
    In (BqLoad ("gs://" +:+ BUCKET +:+ "/" +:+ csv_object_key E1 w) (table_id E3))
       (calls w') /\
    tables w' !! table_id E3 = Some (select_distinct (t ++ rows)) /\
    (forall p, Str.startswith scratch_root p = true -> local_files w' !! p = None).
Proof.
  intros N1 N2 N3 Hapi Hbody Hdf Hstamp Hbucket Hds Ht Hrows.
  destruct (extract_stores E1 BUCKET w resp data Hapi Hbody)
    as (w1 & Hx & _ & _ & Ho1 & Hb1);
    [rewrite (no_faults_quiet E1 Makedirs N1); apply orb_true_r
    |apply no_faults_quiet, N1|apply no_faults_ordinary, N1..|].
  rewrite (no_faults_upload_possible E1 w BUCKET N1 Hbucket) in Ho1.
  destruct (raw_locator_of_BUCKET E1 w Hstamp) as [Hlb Hlk].
  pose proof (transformed_key_of_raw_locator E1 w Hstamp) as Hcsv.
  set (key := raw_locator E1 w BUCKET) in *.
  assert (Hb1' : locator_bucket key ∈ buckets w1) by (rewrite Hlb, Hb1; exact Hbucket).
  assert (Hobj : objects w1 !! (locator_bucket key, locator_object_key key)
                 = Some (JsonText data))
    by (rewrite Hlb, Hlk, Ho1; apply lookup_insert_eq).
  destruct (transform_returns E2 key w1 data df (no_faults_only_upload E2 N2) Hb1' Hobj Hdf)
    as (w2 & Htr & Ho2 & _).
  destruct (transform_cleans E2 key w1 data df (no_faults_only_upload E2 N2) Hb1' Hobj Hdf)
    as (w2' & Htr' & Hclean & _).
  rewrite Htr in Htr'. injection Htr' as <-.
  rewrite (no_faults_upload_possible E2 w1 _ N2 Hb1'), Hlb, Hcsv in Ho2.
  assert (Hw1 : datasets w1 = datasets w /\ tables w1 = tables w).
  { destruct (extract_preserves_warehouse E1 BUCKET) as [P1 P2].
    specialize (P1 w). specialize (P2 w). rewrite Hx in P1, P2. auto. }
  assert (Hw2 : datasets w2 = datasets w1 /\ tables w2 = tables w1).
  { destruct (transform_preserves_warehouse E2 key) as [P1 P2].
    specialize (P1 w1). specialize (P2 w1). rewrite Htr in P1, P2. auto. }
  destruct Hw1 as [Hd1 Ht1], Hw2 as [Hd2 Ht2].
  assert (Hloc : transformed_locator key = BUCKET +:+ "/" +:+ csv_object_key E1 w)
    by (unfold transformed_locator; rewrite Hlb, Hcsv; reflexivity).
  destruct (load_succeeds_fully E3 (transformed_locator key) w2 t rows N3)
    as (w3 & Hld & Htab & _ & _ & Hcall);
    [rewrite Hd2, Hd1; exact Hds|rewrite Ht2, Ht1; exact Ht|rewrite Hloc; exact Hrows|].
  rewrite Hloc in Hcall.
  destruct (load_preserves_storage E3 (transformed_locator key)) as (L1 & _ & _ & L4).
  specialize (L1 w2). specialize (L4 w2). rewrite Hld in L1, L4. simpl in L1, L4.
  exists w3. split.
  { unfold dag_run, bind. fold key. rewrite Hx, Htr. exact Hld. }
  rewrite L4, Ho2, Ho1, Htab, L1.
  split; [|split; [apply lookup_insert_eq|split; [exact Hcall|split;
                                                   [apply lookup_insert_eq|]]]].
  - rewrite lookup_insert_ne; [apply lookup_insert_eq|].
    unfold csv_object_key, raw_object_key. intros [= H].
  - intros p Hp. rewrite Hclean, Hp. reflexivity.
Qed.

Lemma dag_run_succeeds_witness :
  exists w',
    dag_run (sample_env 200 (Ok sample_document) (Ok [sample_row; sample_row]) [])
            (sample_env 200 (Ok sample_document) (Ok [sample_row; sample_row]) [])
            (sample_env 200 (Ok sample_document) (Ok [sample_row; sample_row]) [])
            (sample_world ["poc_etl"] None (Some [])) = (Ok true, w') /\
    tables w' !! "demo.Spotify_Data.recently_played" = Some [sample_row].
Proof.
  destruct (dag_run_succeeds
              (sample_env 200 (Ok sample_document) (Ok [sample_row; sample_row]) [])
              (sample_env 200 (Ok sample_document) (Ok [sample_row; sample_row]) [])
              (sample_env 200 (Ok sample_document) (Ok [sample_row; sample_row]) [])
              (sample_world ["poc_etl"] None (Some []))
              {| status_code := 200; body_json := Ok sample_document |}
              sample_document
              {| df_columns := column_labels; df_len := 1;
                 df_data := [[JStr "A"]; [JStr "B"]; [JStr "C"]; [JInt 1000]; [JInt 50];
                             [JStr "2024-01-01T00:00:00Z"]] |}
              [] [sample_row; sample_row])
    as (w' & Hrun & _ & _ & _ & Htab & _);
    [reflexivity|reflexivity|reflexivity|reflexivity|reflexivity|reflexivity|reflexivity
    |vm_compute; reflexivity|vm_compute; reflexivity|reflexivity|reflexivity|].
  exists w'. split; [exact Hrun|exact Htab].
Defined.
